(** * pygame-menu: the sound engine and the colour validator

    A shallow embedding of [pygame_menu/sound.py] (class [Sound]) and of
    [assert_color] from [pygame_menu/utils.py], with the properties of the
    specification proved about it.

    - Python values that reach an [isinstance] test are kept dynamic
      ([pyval]); Python [float] is IEEE binary64, modelled by Rocq's primitive
      floats, and Python [int] is unbounded, modelled by [Z].
    - The object state ([self]) is a record threaded through a small
      state-and-exception monad [M] that also collects the calls issued to
      pygame and the warnings emitted.
    - What pygame, the clock and the file system answer during one method
      call is an explicit [World]. *)

Set Warnings "-inexact-float,-register-all".
From Stdlib Require Import ZArith Floats.
From stdpp Require Import gmap strings list.

Local Open Scope string_scope.
Local Open Scope Z_scope.

(* ===================================================================== *)
(** ** Python values *)
(* ===================================================================== *)

(** A [mixer.Channel] object, identified by its channel number. *)
Definition Channel := nat.

(** A [mixer.Sound] object: its identity, what [get_length()] answers and
    the volume last given to [set_volume]. *)
Record SoundData := mkSoundData {
  sound_id : positive;
  sound_length : float;
  sound_volume : float
}.

Definition sound_set_volume (v : float) (s : SoundData) : SoundData :=
  {| sound_id := sound_id s; sound_length := sound_length s; sound_volume := v |}.

Inductive pyval : Type :=
| VNone
| VBool (b : bool)
| VInt (z : Z)
| VFloat (f : float)
| VStr (s : string)
| VTuple (items : list pyval)
| VList (items : list pyval)
| VSound (s : SoundData).

Inductive pytype := Tbool | Tint | Tfloat | Tstr | TNoneType | Ttuple | Tlist.

(** [isinstance(v, t)]: [bool] is a subclass of [int]. *)
Definition isinstance1 (v : pyval) (t : pytype) : bool :=
  match t, v with
  | Tbool, VBool _ => true
  | Tint, VInt _ => true
  | Tint, VBool _ => true
  | Tfloat, VFloat _ => true
  | Tstr, VStr _ => true
  | TNoneType, VNone => true
  | Ttuple, VTuple _ => true
  | Tlist, VList _ => true
  | _, _ => false
  end.

(** [isinstance(v, (t1, ..., tn))]. *)
Definition isinstance (v : pyval) (ts : list pytype) : bool :=
  existsb (isinstance1 v) ts.

(** The integer a value of class [int] stands for ([True] is 1). *)
Definition int_value (v : pyval) : option Z :=
  match v with
  | VInt z => Some z
  | VBool b => Some (Z.b2z b)
  | _ => None
  end.

(** Python's [a >= b] on floats. *)
Definition float_ge (a b : float) : bool := PrimFloat.leb b a.

(** [v >= 0] for a number [v]; the comparison of a float with the literal
    [0] is the IEEE one. *)
Definition ge_zero (v : pyval) : bool :=
  match v with
  | VInt z => 0 <=? z
  | VBool b => 0 <=? Z.b2z b
  | VFloat f => float_ge f 0%float
  | _ => false
  end.

(** [v > 0] for a number [v]. *)
Definition gt_zero (v : pyval) : bool :=
  match v with
  | VInt z => 0 <? z
  | VBool b => 0 <? Z.b2z b
  | VFloat f => PrimFloat.ltb 0%float f
  | _ => false
  end.

(** [1 >= v] for a number [v]. *)
Definition one_ge (v : pyval) : bool :=
  match v with
  | VInt z => z <=? 1
  | VBool b => Z.b2z b <=? 1
  | VFloat f => float_ge 1%float f
  | _ => false
  end.

(* ===================================================================== *)
(** ** Exceptions and results *)
(* ===================================================================== *)

(** The exception classes the two modules raise or catch.  An [assert]
    without a message carries the empty string; a formatted message keeps
    its template: the interpolated values are not rendered (except the
    file name of the [IOError]) and the double quotes around a placeholder
    are left out. *)
Inductive exn :=
| AssertionError (msg : string)
| ValueError (msg : string)
| IOError (msg : string)
| KeyError (key : string)
| IndexError
| pygame_error.

Inductive outcome (A : Type) :=
| Return (a : A)
| Raise (e : exn).
Arguments Return {A} a.
Arguments Raise {A} e.

Definition is_assertion_error {A} (o : outcome A) : Prop :=
  exists msg, o = Raise (AssertionError msg).

(* ===================================================================== *)
(** ** utils.py: assert_color *)
(* ===================================================================== *)

Module Utils.

Definition check (b : bool) (msg : string) (k : outcome unit) : outcome unit :=
  if b then k else Raise (AssertionError msg).

(** [0 <= v <= 255] for a value of class [int]. *)
Definition in_byte_range (v : pyval) : bool :=
  match int_value v with
  | Some z => (0 <=? z) && (z <=? 255)
  | None => false
  end.

(** The body of [for i in range(3)], for the indices in [idx]. *)
Fixpoint check_channels (color : list pyval) (idx : list nat)
    (k : outcome unit) : outcome unit :=
  match idx with
  | [] => k
  | i :: rest =>
      match color !! i with
      | None => Raise IndexError
      | Some c =>
          check (isinstance c [Tint])
            "{0} in element color {1} must be an integer"
            (check (in_byte_range c)
               "{0} in element color {1} must be a number between 0 and 255"
               (check_channels color rest k))
      end
  end.

Definition assert_color (color : pyval) : outcome unit :=
  check (isinstance color [Ttuple; Tlist]) "color must be a tuple or list"
    match color with
    | VTuple items | VList items =>
        let len := Z.of_nat (length items) in
        check ((len <=? 4) && (3 <=? len))
          "color must be a tuple or list of 3 or 4 numbers"
          (check_channels items (seq 0 3)
             (if len =? 4 then
                match items !! 3%nat with
                | None => Raise IndexError
                | Some a =>
                    check (isinstance a [Tint])
                      "alpha channel must be an integer between 0 and 255"
                      (check (in_byte_range a)
                         "opacity of color {0} must be an integer between 0 and 255, 0 is transparent, 255 is opaque"
                         (Return tt))
                end
              else Return tt))
    | _ => Raise (AssertionError "color must be a tuple or list")
    end.

End Utils.

(* ===================================================================== *)
(** ** sound.py: constants *)
(* ===================================================================== *)

Definition SOUND_TYPE_CLICK_MOUSE := "__pygame_menu_sound_click_mouse__".
Definition SOUND_TYPE_CLOSE_MENU := "__pygame_menu_sound_close_menu__".
Definition SOUND_TYPE_ERROR := "__pygame_menu_sound_error__".
Definition SOUND_TYPE_EVENT := "__pygame_menu_sound_event__".
Definition SOUND_TYPE_EVENT_ERROR := "__pygame_menu_sound_event_error__".
Definition SOUND_TYPE_KEY_ADDITION := "__pygame_menu_sound_key_addition__".
Definition SOUND_TYPE_KEY_DELETION := "__pygame_menu_sound_key_deletion__".
Definition SOUND_TYPE_OPEN_MENU := "__pygame_menu_sound_open_menu__".
Definition SOUND_TYPE_WIDGET_SELECTION := "__pygame_menu_sound_widget_selection__".

(** [path.join(dir, 'resources', 'sounds', '{0}').format(name)], where
    [dir] is the directory of the module file. *)
Definition __sounds_path__ (dir name : string) : string :=
  dir +:+ "/resources/sounds/" +:+ name.

Definition SOUND_EXAMPLES (dir : string) : list string :=
  [ __sounds_path__ dir "click_mouse.ogg";
    __sounds_path__ dir "close_menu.ogg";
    __sounds_path__ dir "error.ogg";
    __sounds_path__ dir "event.ogg";
    __sounds_path__ dir "event_error.ogg";
    __sounds_path__ dir "key_add.ogg";
    __sounds_path__ dir "key_delete.ogg";
    __sounds_path__ dir "open_menu.ogg";
    __sounds_path__ dir "widget_selection.ogg" ].

(* ===================================================================== *)
(** ** sound.py: the state of a Sound object *)
(* ===================================================================== *)

(** The dictionary [set_sound] stores for a bound sound type. *)
Record Clip := mkClip {
  clip_file : SoundData;
  clip_path : string;
  clip_type : string;
  clip_length : float;
  clip_volume : pyval;
  clip_loops : pyval;
  clip_maxtime : pyval;
  clip_fade_ms : pyval
}.

(** An entry of [self._sound]: the empty dictionary [{}] or a clip. *)
Inductive sound_dict :=
| EmptyDict
| ClipDict (c : Clip).

Record Sound := mkSound {
  _channel : option Channel;
  _last_play : string;
  _last_time : float;
  _sound : gmap string sound_dict;
  _type_sounds : list string;
  _uniquechannel : bool
}.

Definition set__channel (c : option Channel) (self : Sound) : Sound :=
  {| _channel := c; _last_play := _last_play self; _last_time := _last_time self;
     _sound := _sound self; _type_sounds := _type_sounds self;
     _uniquechannel := _uniquechannel self |}.

Definition set__sound (k : string) (d : sound_dict) (self : Sound) : Sound :=
  {| _channel := _channel self; _last_play := _last_play self;
     _last_time := _last_time self; _sound := <[k := d]> (_sound self);
     _type_sounds := _type_sounds self; _uniquechannel := _uniquechannel self |}.

Definition set__last (play : string) (time : float) (self : Sound) : Sound :=
  {| _channel := _channel self; _last_play := play; _last_time := time;
     _sound := _sound self; _type_sounds := _type_sounds self;
     _uniquechannel := _uniquechannel self |}.

(* ===================================================================== *)
(** ** The collaborators *)
(* ===================================================================== *)

(** What pygame, [time] and [os.path] answer during one method call. *)
Record World := mkWorld {
  (** [mixer.find_channel()]: [None] when every channel is busy *)
  mixer_find_channel : option Channel;
  (** [time.time()] *)
  time_time : float;
  (** [path.isfile(p)] *)
  path_isfile : string -> bool;
  (** [mixer.Sound(file=p)]: [None] when it raises [pygame.error] *)
  mixer_Sound : string -> option SoundData;
  (** whether [channel.stop()], [.play()], [.pause()], [.unpause()] raise
      [pygame.error] *)
  stop_raises : bool;
  play_raises : bool;
  pause_raises : bool;
  unpause_raises : bool;
  (** the getters of a channel *)
  channel_get_busy : Channel -> pyval;
  channel_get_endevent : Channel -> pyval;
  channel_get_queue : Channel -> pyval;
  channel_get_sound : Channel -> pyval;
  channel_get_volume : Channel -> pyval;
  (** [path.dirname(path.abspath(__file__))] *)
  module_dir : string;
  (** [mixer.get_init() is None], [pygame.vernum], and whether
      [mixer.init] raises *)
  mixer_get_init_is_None : bool;
  pygame_version : Z * Z * Z;
  mixer_init_raises : option string
}.

(** What a method does to the outside. *)
Inductive Event :=
| MixerInit (frequency size channels buffer : pyval)
    (devicename allowedchanges : option pyval)
| Printed (msg : string)
| Warn (msg : string)
| ChannelStop (c : Channel)
| ChannelPlay (c : Channel) (file : SoundData) (loops maxtime fade_ms : pyval)
| ChannelPause (c : Channel)
| ChannelUnpause (c : Channel).

(* ===================================================================== *)
(** ** The monad of the methods *)
(* ===================================================================== *)

Record Result (A : Type) := mkResult {
  result : outcome A;
  self_after : Sound;
  events : list Event
}.
Arguments mkResult {A} _ _ _.
Arguments result {A} _.
Arguments self_after {A} _.
Arguments events {A} _.

Definition M (A : Type) : Type := Sound -> Result A.

Definition ret {A} (a : A) : M A := fun self => mkResult (Return a) self [].

Definition raise {A} (e : exn) : M A := fun self => mkResult (Raise e) self [].

Definition bind {A B} (m : M A) (k : A -> M B) : M B := fun self =>
  let r := m self in
  match result r with
  | Return a =>
      let r' := k a (self_after r) in
      mkResult (result r') (self_after r') (events r ++ events r')
  | Raise e => mkResult (Raise e) (self_after r) (events r)
  end.

Notation "x <- m ;; k" := (bind m (fun x => k))
  (at level 100, m at next level, right associativity).
Notation "m ;; k" := (bind m (fun _ => k))
  (at level 100, right associativity).

Definition get_self : M Sound := fun self => mkResult (Return self) self [].

Definition modify (f : Sound -> Sound) : M unit := fun self =>
  mkResult (Return tt) (f self) [].

Definition emit (e : Event) : M unit := fun self =>
  mkResult (Return tt) self [e].

(** [assert b, msg] *)
Definition assert_ (b : bool) (msg : string) : M unit :=
  if b then ret tt else raise (AssertionError msg).

(** [try: m  except pygame_error: pass] *)
Definition except_pygame_error_pass (m : M unit) : M unit := fun self =>
  let r := m self in
  match result r with
  | Raise pygame_error => mkResult (Return tt) (self_after r) (events r)
  | _ => r
  end.

(** A call of a channel method: it is issued, and may raise. *)
Definition channel_call (e : Event) (raises : bool) : M unit :=
  emit e ;; if raises then raise pygame_error else ret tt.

(* ===================================================================== *)
(** ** class Sound *)
(* ===================================================================== *)

Definition TYPE_SOUNDS : list string :=
  [ SOUND_TYPE_CLICK_MOUSE; SOUND_TYPE_CLOSE_MENU; SOUND_TYPE_ERROR;
    SOUND_TYPE_EVENT; SOUND_TYPE_EVENT_ERROR; SOUND_TYPE_KEY_ADDITION;
    SOUND_TYPE_KEY_DELETION; SOUND_TYPE_OPEN_MENU;
    SOUND_TYPE_WIDGET_SELECTION ].

(** The truth value of a [bool] argument. *)
Definition truth (v : pyval) : bool :=
  match v with VBool b => b | _ => false end.

(** The calls of [mixer.init] for the three ranges of pygame versions,
    and the message printed when the call raises. *)
Definition init_mixer (w : World)
    (frequency size channels buffer devicename allowedchanges : pyval)
    : list Event :=
  let '(version_major, _, version_minor) := pygame_version w in
  let call :=
    if (version_major =? 1) && (version_minor <=? 4) then
      [MixerInit frequency size channels buffer None None]
    else if (version_major =? 1) && (4 <? version_minor) then
      [MixerInit frequency size channels buffer (Some devicename) None]
    else if 1 <? version_major then
      [MixerInit frequency size channels buffer (Some devicename)
         (Some allowedchanges)]
    else [] in
  match call, mixer_init_raises w with
  | _ :: _, Some e => call ++ [Printed ("sound error: " +:+ e)]
  | _, _ => call
  end.

(** [Sound.__init__]: the new object, the new value of the global
    [SOUND_INITIALIZED[0]] and what was done to the outside. *)
Definition __init__ (w : World) (SOUND_INITIALIZED : bool)
    (uniquechannel frequency size channels buffer devicename allowedchanges
       force_init : pyval)
    : outcome Sound * bool * list Event :=
  let failed msg := (Raise (AssertionError msg), SOUND_INITIALIZED, []) in
  if negb (isinstance uniquechannel [Tbool]) then failed ""
  else if negb (isinstance frequency [Tint]) then failed ""
  else if negb (isinstance size [Tint]) then failed ""
  else if negb (isinstance channels [Tint]) then failed ""
  else if negb (isinstance buffer [Tint]) then failed ""
  else if negb (isinstance devicename [Tstr]) then failed ""
  else if negb (isinstance allowedchanges [Tint]) then failed ""
  else if negb (isinstance force_init [Tbool]) then failed ""
  else if negb (gt_zero frequency) then
    failed "frequency must be greater than zero"
  else if negb (gt_zero channels) then
    failed "channels must be greater than zero"
  else if negb (gt_zero buffer) then
    failed "buffer size must be greater than zero"
  else
    let init :=
      (mixer_get_init_is_None w && negb SOUND_INITIALIZED) || truth force_init in
    let self :=
      {| _channel := None;
         _uniquechannel := truth uniquechannel;
         _type_sounds := TYPE_SOUNDS;
         _sound := foldl (fun d sound => <[sound := EmptyDict]> d) ∅ TYPE_SOUNDS;
         _last_play := "";
         _last_time := 0%float |} in
    (Return self,
     if init then true else SOUND_INITIALIZED,
     if init then
       init_mixer w frequency size channels buffer devicename allowedchanges
     else []).

(** [Sound.get_channel] *)
Definition get_channel (w : World) : M (option Channel) :=
  let channel := mixer_find_channel w in
  self <- get_self ;;
  (if _uniquechannel self then
     match _channel self with
     | None => modify (set__channel channel)
     | Some _ => ret tt
     end
   else modify (set__channel channel)) ;;
  self <- get_self ;;
  ret (_channel self).

Definition dquote : string := String (Ascii.ascii_of_nat 34) "".

(** [Sound.set_sound], after its assertions: [type] and [vol] are the
    string and the float that [sound_type] and [volume] were found to be. *)
Definition set_sound_checked (w : World) (type : string) (sound_file : pyval)
    (vol : float) (volume loops maxtime fade_ms : pyval) : M bool :=
  self <- get_self ;;
  (* Check sound type is correct *)
  if negb (bool_decide (type ∈ _type_sounds self)) then
    raise (ValueError "sound type not valid, check the manual")
  else
    match sound_file with
    | VNone =>
        (* If file is none disable the sound *)
        modify (set__sound type EmptyDict) ;;
        ret false
    | VStr file =>
        (* Check the file exists *)
        if negb (path_isfile w file) then
          raise (IOError ("sound file " +:+ dquote +:+ file +:+ dquote
                            +:+ " does not exist"))
        else
          (* Load the sound *)
          match mixer_Sound w file with
          | None =>
              emit (Warn "the sound format is not valid, the sound has been disabled") ;;
              modify (set__sound type EmptyDict) ;;
              ret false
          | Some sound_data =>
              (* Configure the sound *)
              let sound_data := sound_set_volume vol sound_data in
              (* Store the sound *)
              modify (set__sound type (ClipDict
                {| clip_file := sound_data;
                   clip_path := file;
                   clip_type := type;
                   clip_length := sound_length sound_data;
                   clip_volume := volume;
                   clip_loops := loops;
                   clip_maxtime := maxtime;
                   clip_fade_ms := fade_ms |})) ;;
              ret true
          end
    | _ => raise (AssertionError "")
    end.

(** [Sound.set_sound] *)
Definition set_sound (w : World)
    (sound_type sound_file volume loops maxtime fade_ms : pyval) : M bool :=
  assert_ (isinstance sound_type [Tstr]) "" ;;
  assert_ (isinstance sound_file [Tstr; TNoneType]) "" ;;
  assert_ (isinstance volume [Tfloat]) "" ;;
  assert_ (isinstance loops [Tint]) "" ;;
  assert_ (isinstance maxtime [Tint; Tfloat]) "" ;;
  assert_ (isinstance fade_ms [Tint; Tfloat]) "" ;;
  assert_ (ge_zero loops) "loops count must be equal or greater than zero" ;;
  assert_ (ge_zero maxtime) "maxtime must be equal or greater than zero" ;;
  assert_ (ge_zero fade_ms) "fade_ms must be equal or greater than zero" ;;
  assert_ (one_ge volume && ge_zero volume) "volume must be between 0 and 1" ;;
  match sound_type, volume with
  | VStr type, VFloat vol =>
      set_sound_checked w type sound_file vol volume loops maxtime fade_ms
  | _, _ => raise (AssertionError "")
  end.

(** [l[i]] *)
Definition index {A} (l : list A) (i : nat) : M A :=
  match l !! i with
  | Some a => ret a
  | None => raise IndexError
  end.

(** [for i in range(n): body(i)], over the indices [idx]. *)
Fixpoint for_range (idx : list nat) (body : nat -> M unit) : M unit :=
  match idx with
  | [] => ret tt
  | i :: rest => body i ;; for_range rest body
  end.

(** [Sound.load_example_sounds] *)
Definition load_example_sounds (w : World) (volume : pyval) : M unit :=
  assert_ (isinstance volume [Tfloat]) "" ;;
  self <- get_self ;;
  for_range (seq 0 (length (_type_sounds self))) (fun sound =>
    self <- get_self ;;
    type <- index (_type_sounds self) sound ;;
    example <- index (SOUND_EXAMPLES (module_dir w)) sound ;;
    set_sound w (VStr type) (VStr example) volume (VInt 0) (VInt 0) (VInt 0) ;;
    ret tt).

(** The test of [_play_sound] that lets the sound through: another sound
    than the last one, or at least 20% of its length elapsed, or a unique
    channel. *)
Definition overlap_gate (self : Sound) (sound : Clip) (soundtime : float)
    : bool :=
  negb (String.eqb (clip_type sound) (_last_play self))
  || float_ge (soundtime - _last_time self)%float
       (0.2 * clip_length sound)%float
  || _uniquechannel self.

(** [Sound._play_sound] *)
Definition _play_sound (w : World) (sound : option sound_dict) : M bool :=
  match sound with
  | None | Some EmptyDict => ret false
  | Some (ClipDict sound) =>
      (* Find an available channel *)
      channel <- get_channel w ;;
      match channel with
      | None => ret false
      | Some channel =>
          (* Play the sound *)
          let soundtime := time_time w in
          self <- get_self ;;
          (if overlap_gate self sound soundtime then
             except_pygame_error_pass
               ((if _uniquechannel self then
                   channel_call (ChannelStop channel) (stop_raises w)
                 else ret tt) ;;
                channel_call
                  (ChannelPlay channel (clip_file sound) (clip_loops sound)
                     (clip_maxtime sound) (clip_fade_ms sound))
                  (play_raises w))
           else ret tt) ;;
          (* Store last execution *)
          modify (set__last (clip_type sound) soundtime) ;;
          ret true
      end
  end.

(** [self._sound[key]] *)
Definition sound_entry (key : string) : M sound_dict :=
  self <- get_self ;;
  match _sound self !! key with
  | Some d => ret d
  | None => raise (KeyError key)
  end.

(** The body shared by the nine [play_*] methods:
    [self._play_sound(self._sound[key])]. *)
Definition play (w : World) (key : string) : M unit :=
  d <- sound_entry key ;;
  _play_sound w (Some d) ;;
  ret tt.

Definition play_click_mouse w := play w SOUND_TYPE_CLICK_MOUSE.
Definition play_error w := play w SOUND_TYPE_ERROR.
Definition play_event w := play w SOUND_TYPE_EVENT.

(** [Sound.stop], [Sound.pause], [Sound.unpause] *)
Definition transport (w : World) (call : Channel -> Event) (raises : bool)
    : M unit :=
  channel <- get_channel w ;;
  match channel with
  | None => ret tt
  | Some channel =>
      except_pygame_error_pass (channel_call (call channel) raises)
  end.

Definition stop w := transport w ChannelStop (stop_raises w).
Definition pause w := transport w ChannelPause (pause_raises w).
Definition unpause w := transport w ChannelUnpause (unpause_raises w).

(** [Sound.get_channel_info] *)
Definition get_channel_info (w : World) : M (gmap string pyval) :=
  channel <- get_channel w ;;
  let data : gmap string pyval := ∅ in
  match channel with
  | None => ret data
  | Some channel =>
      let data := <["busy" := channel_get_busy w channel]> data in
      let data := <["endevent" := channel_get_endevent w channel]> data in
      let data := <["queue" := channel_get_queue w channel]> data in
      let data := <["sound" := channel_get_sound w channel]> data in
      let data := <["volume" := channel_get_volume w channel]> data in
      ret data
  end.

(* ===================================================================== *)
(** ** Valid colours *)
(* ===================================================================== *)

(** An integer between 0 and 255: a value of class [int] ([bool]
    included, as for [isinstance]) in that range. *)
Definition byte_int (v : pyval) : Prop :=
  exists z, int_value v = Some z /\ 0 <= z <= 255.

(** Three integers in [0,255], or four with the alpha channel in [0,255]
    as well. *)
Definition valid_items (items : list pyval) : Prop :=
  exists r g b, byte_int r /\ byte_int g /\ byte_int b /\
    (items = [r; g; b] \/ exists a, byte_int a /\ items = [r; g; b; a]).

(** A valid colour: a tuple or a list of such items. *)
Definition valid_color (color : pyval) : Prop :=
  exists items, (color = VTuple items \/ color = VList items) /\
    valid_items items.

(* ===================================================================== *)
(** ** Vocabulary of the specification *)
(* ===================================================================== *)

(** The calls of [get_channel] in a row, one world per call. *)
Fixpoint get_channel_calls (ws : list World) : M (list (option Channel)) :=
  match ws with
  | [] => ret []
  | w :: ws =>
      c <- get_channel w ;;
      cs <- get_channel_calls ws ;;
      ret (c :: cs)
  end.

(** The backend play calls among the events of a run. *)
Definition is_play (e : Event) : bool :=
  match e with ChannelPlay _ _ _ _ _ => true | _ => false end.

Definition play_calls (es : list Event) : list Event := filter is_play es.

(** The play call [_play_sound] issues for a clip on a channel. *)
Definition play_of (ch : Channel) (c : Clip) : Event :=
  ChannelPlay ch (clip_file c) (clip_loops c) (clip_maxtime c) (clip_fade_ms c).

(** The calls [_play_sound] issues on channel [ch] once the gate is
    passed. *)
Definition playback (w : World) (unique : bool) (ch : Channel) (c : Clip)
    : list Event :=
  if unique then
    ChannelStop ch :: (if stop_raises w then [] else [play_of ch c])
  else [play_of ch c].

(** An [int] (or [bool]) that is at least 0. *)
Definition count_ok (v : pyval) : Prop :=
  exists z, int_value v = Some z /\ 0 <= z.

(** An [int] or a [float] that is at least 0. *)
Definition millis_ok (v : pyval) : Prop :=
  count_ok v \/ exists f, v = VFloat f /\ PrimFloat.leb 0 f = true.

(** A [float] between 0 and 1. *)
Definition volume_ok (v : pyval) : Prop :=
  exists f, v = VFloat f /\ PrimFloat.leb 0 f = true /\ PrimFloat.leb f 1 = true.

(** A number below 0. *)
Definition negative (v : pyval) : Prop :=
  (exists z, int_value v = Some z /\ z < 0) \/
  (exists f, v = VFloat f /\ PrimFloat.ltb f 0 = true).

(** A number outside the interval from 0 to 1. *)
Definition outside_unit (v : pyval) : Prop :=
  (exists z, int_value v = Some z /\ (z < 0 \/ 1 < z)) \/
  (exists f, v = VFloat f /\
     (PrimFloat.ltb f 0 = true \/ PrimFloat.ltb 1 f = true)).

(** An invalid-argument error: a failed assertion or a [ValueError]. *)
Definition invalid_argument {A} (o : outcome A) : Prop :=
  exists msg, o = Raise (AssertionError msg) \/ o = Raise (ValueError msg).

(** A not-found error. *)
Definition not_found {A} (o : outcome A) : Prop :=
  exists msg, o = Raise (IOError msg).

(** The arguments of [set_sound] that pass its assertions. *)
Definition checked_args (sound_type sound_file volume loops maxtime fade_ms
    : pyval) : Prop :=
  (exists type, sound_type = VStr type) /\
  (sound_file = VNone \/ exists file, sound_file = VStr file) /\
  volume_ok volume /\ count_ok loops /\ millis_ok maxtime /\ millis_ok fade_ms.

(** A failed assertion of [set_sound]: the exception, the object as it
    was, nothing issued. *)
Definition assertion_failed (self : Sound) (r : Result bool) : Prop :=
  exists msg, r = mkResult (Raise (AssertionError msg)) self [].

(* ===================================================================== *)
(** ** A concrete backend, for the examples *)
(* ===================================================================== *)

Module Demo.

(** A decoded clip of one second at full volume. *)
Definition one_second : SoundData :=
  {| sound_id := 1; sound_length := 1%float; sound_volume := 1%float |}.

(** A world at time [t] in which channel [ch] is what the mixer finds,
    every path is a decodable file and no call raises. *)
Definition world (ch : option Channel) (t : float) : World :=
  {| mixer_find_channel := ch;
     time_time := t;
     path_isfile := fun _ => true;
     mixer_Sound := fun _ => Some one_second;
     stop_raises := false;
     play_raises := false;
     pause_raises := false;
     unpause_raises := false;
     channel_get_busy := fun _ => VBool false;
     channel_get_endevent := fun _ => VInt 0;
     channel_get_queue := fun _ => VNone;
     channel_get_sound := fun _ => VNone;
     channel_get_volume := fun _ => VFloat 1;
     module_dir := "/pygame_menu";
     mixer_get_init_is_None := true;
     pygame_version := (2, 0, 1);
     mixer_init_raises := None |}.

(** A world without files. *)
Definition no_files (w : World) : World :=
  {| mixer_find_channel := mixer_find_channel w;
     time_time := time_time w;
     path_isfile := fun _ => false;
     mixer_Sound := mixer_Sound w;
     stop_raises := stop_raises w;
     play_raises := play_raises w;
     pause_raises := pause_raises w;
     unpause_raises := unpause_raises w;
     channel_get_busy := channel_get_busy w;
     channel_get_endevent := channel_get_endevent w;
     channel_get_queue := channel_get_queue w;
     channel_get_sound := channel_get_sound w;
     channel_get_volume := channel_get_volume w;
     module_dir := module_dir w;
     mixer_get_init_is_None := mixer_get_init_is_None w;
     pygame_version := pygame_version w;
     mixer_init_raises := mixer_init_raises w |}.

(** A world in which no file decodes. *)
Definition no_codec (w : World) : World :=
  {| mixer_find_channel := mixer_find_channel w;
     time_time := time_time w;
     path_isfile := path_isfile w;
     mixer_Sound := fun _ => None;
     stop_raises := stop_raises w;
     play_raises := play_raises w;
     pause_raises := pause_raises w;
     unpause_raises := unpause_raises w;
     channel_get_busy := channel_get_busy w;
     channel_get_endevent := channel_get_endevent w;
     channel_get_queue := channel_get_queue w;
     channel_get_sound := channel_get_sound w;
     channel_get_volume := channel_get_volume w;
     module_dir := module_dir w;
     mixer_get_init_is_None := mixer_get_init_is_None w;
     pygame_version := pygame_version w;
     mixer_init_raises := mixer_init_raises w |}.

(** [Sound(uniquechannel=unique)] with the default arguments. *)
Definition new_sound (unique : bool) : outcome Sound * bool * list Event :=
  __init__ (world None 0) false (VBool unique) (VInt 22050) (VInt (-16))
    (VInt 2) (VInt 4096) (VStr "") (VInt 0) (VBool false).

(** The object [new_sound] returns. *)
Definition registry (unique : bool) : Sound :=
  match new_sound unique with
  | (Return self, _, _) => self
  | _ => mkSound None "" 0 ∅ [] unique
  end.

(** The registry after [set_sound(key, 'click.ogg')] with the default
    arguments. *)
Definition bound (unique : bool) (key : string) : Sound :=
  self_after
    (set_sound (world None 0) (VStr key) (VStr "click.ogg") (VFloat 0.5)
       (VInt 0) (VInt 0) (VInt 0) (registry unique)).

(** Its clip. *)
Definition clip (key : string) : Clip :=
  {| clip_file := sound_set_volume 0.5 one_second;
     clip_path := "click.ogg";
     clip_type := key;
     clip_length := 1;
     clip_volume := VFloat 0.5;
     clip_loops := VInt 0;
     clip_maxtime := VInt 0;
     clip_fade_ms := VInt 0 |}.

(** Three plays of the click sound at the times [t1], [t2], [t3]. *)
Definition three_clicks (t1 t2 t3 : float) : Result unit :=
  (play_click_mouse (world (Some 0%nat) t1) ;;
   play_click_mouse (world (Some 0%nat) t2) ;;
   play_click_mouse (world (Some 0%nat) t3))
    (bound false SOUND_TYPE_CLICK_MOUSE).

End Demo.

(* ===================================================================== *)
(** ** Vocabulary of the further properties *)
(* ===================================================================== *)

(** What [set_sound] stores for a file that exists: the clip when the file
    decodes, the empty dictionary when it does not. *)
Definition loaded_entry (w : World) (type file : string) (vol : float)
    (volume loops maxtime fade_ms : pyval) : sound_dict :=
  match mixer_Sound w file with
  | Some sound_data =>
      ClipDict
        {| clip_file := sound_set_volume vol sound_data;
           clip_path := file;
           clip_type := type;
           clip_length := sound_length sound_data;
           clip_volume := volume;
           clip_loops := loops;
           clip_maxtime := maxtime;
           clip_fade_ms := fade_ms |}
  | None => EmptyDict
  end.

(** The warning of [set_sound] for a file that exists, if any. *)
Definition loaded_warning (w : World) (file : string) : list Event :=
  match mixer_Sound w file with
  | Some _ => []
  | None => [Warn "the sound format is not valid, the sound has been disabled"]
  end.

(** A clip as [set_sound] builds it for the key [key]. *)
Definition clip_ok (key : string) (c : Clip) : Prop :=
  clip_type c = key /\
  clip_length c = sound_length (clip_file c) /\
  clip_volume c = VFloat (sound_volume (clip_file c)) /\
  volume_ok (clip_volume c) /\
  count_ok (clip_loops c) /\
  millis_ok (clip_maxtime c) /\
  millis_ok (clip_fade_ms c).

(** The shape of a registry: the nine sound types, an entry for each of
    them and for nothing else, and every clip well formed. *)
Definition registry_ok (self : Sound) : Prop :=
  _type_sounds self = TYPE_SOUNDS /\
  (forall k, is_Some (_sound self !! k) <-> k ∈ TYPE_SOUNDS) /\
  (forall k c, _sound self !! k = Some (ClipDict c) -> clip_ok k c).

(** Plays of one sound in a row, one world per call. *)
Fixpoint play_all (ws : list World) (key : string) : M unit :=
  match ws with
  | [] => ret tt
  | w :: ws => play w key ;; play_all ws key
  end.

(** Calls that each find a channel and each come, after the call before
    (the first one after [t0]), sooner than 20% of the length [len]. *)
Fixpoint within_window (len t0 : float) (ws : list World) : Prop :=
  match ws with
  | [] => True
  | w :: ws =>
      mixer_find_channel w <> None /\
      float_ge (time_time w - t0) (0.2 * len) = false /\
      within_window len (time_time w) ws
  end.

(** The example file of the sound type at an index, and the entries that
    [load_example_sounds] has stored once it has gone through the indices
    [idx]. *)
Definition example_at (w : World) (i : nat) : option (string * string) :=
  match TYPE_SOUNDS !! i, SOUND_EXAMPLES (module_dir w) !! i with
  | Some type, Some file => Some (type, file)
  | _, _ => None
  end.

Definition examples_stored (w : World) (vol : float) (idx : list nat)
    (self : Sound) : Sound :=
  foldl
    (fun self i =>
       match example_at w i with
       | Some (type, file) =>
           set__sound type
             (loaded_entry w type file vol (VFloat vol) (VInt 0) (VInt 0)
                (VInt 0)) self
       | None => self
       end)
    self idx.

Definition examples_warned (w : World) (idx : list nat) : list Event :=
  flat_map
    (fun i =>
       match example_at w i with
       | Some (_, file) => loaded_warning w file
       | None => []
       end)
    idx.

(** The arguments [Sound.__init__] accepts: of the asserted classes, with
    a frequency, a number of channels and a buffer size above zero. *)
Definition positive_int (v : pyval) : Prop :=
  exists z, int_value v = Some z /\ 0 < z.

Definition init_args_ok
    (uniquechannel frequency size channels buffer devicename allowedchanges
       force_init : pyval) : Prop :=
  (exists b, uniquechannel = VBool b) /\
  positive_int frequency /\
  (exists z, int_value size = Some z) /\
  positive_int channels /\
  positive_int buffer /\
  (exists s, devicename = VStr s) /\
  (exists z, int_value allowedchanges = Some z) /\
  (exists b, force_init = VBool b).

(** Whether an event is a call of [mixer.init]. *)
Definition is_mixer_init (e : Event) : bool :=
  match e with MixerInit _ _ _ _ _ _ => true | _ => false end.

(** A method keeps a property of the object, however it ends. *)
Definition preserves {A} (P : Sound -> Prop) (m : M A) : Prop :=
  forall self, P self -> P (self_after (m self)).

(** What [set_sound] returns for a file that exists. *)
Definition loaded_status (w : World) (file : string) : bool :=
  match mixer_Sound w file with
  | Some _ => true
  | None => false
  end.

(* ===================================================================== *)
(** ** utils.py: the other helpers *)
(* ===================================================================== *)

Module Helpers.
Import Utils.

(** [assert_vector2] *)
Definition assert_vector2 (num_vector : pyval) : outcome unit :=
  check (isinstance num_vector [Ttuple; Tlist])
    "vector {0} must be a list or tuple of 2 items"
    match num_vector with
    | VTuple items | VList items =>
        check (Z.of_nat (length items) =? 2)
          "vector {0} must contain 2 items only"
          match items !! 0%nat, items !! 1%nat with
          | Some a, Some b =>
              let vector_numeric :=
                isinstance a [Tint; Tfloat] && isinstance b [Tint; Tfloat] in
              check vector_numeric
                "each item of {0} vector must be integer or float"
                (Return tt)
          | _, _ => Raise IndexError
          end
    | _ => Raise (AssertionError "vector {0} must be a list or tuple of 2 items")
    end.

(** A number: an [int] (or [bool]) or a [float]. *)
Definition is_number (v : pyval) : Prop :=
  (exists z, int_value v = Some z) \/ (exists f, v = VFloat f).

(** A tuple or list of exactly two numbers. *)
Definition valid_vector2 (v : pyval) : Prop :=
  exists a b, (v = VTuple [a; b] \/ v = VList [a; b]) /\
    is_number a /\ is_number b.

(** What the helpers that talk to pygame raise besides the exceptions of
    [exn]. *)
Inductive raised :=
| Builtin (e : exn)
| OverflowError (msg : string)
| TypeError (msg : string)
| AttributeError (name : string).

Inductive returns (A : Type) :=
| Returns (a : A)
| Raises (e : raised).
Arguments Returns {A} a.
Arguments Raises {A} e.

(** [int(v)] for a number: an integer is itself, a float is truncated
    towards zero, and an infinity or a NaN raises.  (The other classes do
    not reach it in [make_surface].) *)
Definition int_ (v : pyval) : returns Z :=
  match v with
  | VInt z => Returns z
  | VBool b => Returns (Z.b2z b)
  | VFloat f =>
      match Prim2SF f with
      | S754_nan =>
          Raises (Builtin (ValueError "cannot convert float NaN to integer"))
      | S754_infinity _ =>
          Raises (OverflowError "cannot convert float infinity to integer")
      | S754_zero _ => Returns 0
      | S754_finite s m e =>
          let magnitude := Z.shiftl (Z.pos m) e in
          Returns (if s then - magnitude else magnitude)
      end
  | _ => Raises (TypeError "int() argument must be a number")
  end.

(** A [pygame.Surface]: its size, the [SRCALPHA] flag and the depth it was
    created with, whether it went through [convert_alpha], and the colour
    it was filled with. *)
Record Surface := mkSurface {
  surface_size : Z * Z;
  surface_srcalpha : bool;
  surface_depth : Z;
  surface_converted : bool;
  surface_fill : option pyval
}.

(** Whether [pygame.Surface(size, ...)] and [Surface.convert_alpha] raise
    [pygame.error]. *)
Record Display := mkDisplay {
  Surface_raises : Z * Z -> bool;
  convert_alpha_raises : bool
}.

(** [make_surface] *)
Definition make_surface (d : Display) (width height alpha fill_color : pyval)
    : returns Surface :=
  let failed msg := Raises (Builtin (AssertionError msg)) in
  if negb (isinstance width [Tint; Tfloat]) then failed ""
  else if negb (isinstance height [Tint; Tfloat]) then failed ""
  else if negb (isinstance alpha [Tbool]) then failed ""
  else if negb (isinstance fill_color [TNoneType; Ttuple]) then failed ""
  else if negb (ge_zero width && ge_zero height) then
    failed "surface width and height must be equal or greater than zero"
  else
    match int_ width with
    | Raises e => Raises e
    | Returns w =>
        match int_ height with
        | Raises e => Raises e
        | Returns h =>
            if Surface_raises d (w, h) then Raises (Builtin pygame_error)
            else
              let surface :=
                {| surface_size := (w, h); surface_srcalpha := true;
                   surface_depth := 32; surface_converted := false;
                   surface_fill := None |} in
              if truth alpha && convert_alpha_raises d then
                Raises (Builtin pygame_error)
              else
                let surface :=
                  if truth alpha then
                    {| surface_size := surface_size surface;
                       surface_srcalpha := surface_srcalpha surface;
                       surface_depth := surface_depth surface;
                       surface_converted := true;
                       surface_fill := surface_fill surface |}
                  else surface in
                match fill_color with
                | VNone => Returns surface
                | _ =>
                    match assert_color fill_color with
                    | Raise e => Raises (Builtin e)
                    | Return _ =>
                        Returns
                          {| surface_size := surface_size surface;
                             surface_srcalpha := surface_srcalpha surface;
                             surface_depth := surface_depth surface;
                             surface_converted := surface_converted surface;
                             surface_fill := Some fill_color |}
                    end
                end
        end
    end.

(** The truth value of a Python value. *)
Definition truthy (v : pyval) : bool :=
  match v with
  | VNone => false
  | VBool b => b
  | VInt z => negb (z =? 0)
  | VFloat f => negb (PrimFloat.eqb f 0)
  | VStr s => negb (String.eqb s "")
  | VTuple items | VList items =>
      match items with [] => false | _ => true end
  | VSound _ => true
  end.

(** An event given to [pygame.event.post]: a [KEYUP] with its key. *)
Inductive Posted := PostKeyUp (key : pyval).

(** [check_key_pressed_valid]: [pressed] is what
    [pygame.key.get_pressed()] answers and [event] is the dictionary of
    the event, through which its attributes are read. *)
Definition check_key_pressed_valid (pressed : list bool)
    (event : gmap string pyval) : returns bool * list Posted :=
  let bad_event := negb (bool_decide (true ∈ pressed)) in
  if bad_event then
    if match event !! "test" with
       | Some test => truthy test
       | None => false
       end
    then (Returns true, [])
    else
      match event !! "key" with
      | None => (Raises (AttributeError "key"), [])
      | Some key => (Returns (negb bad_event), [PostKeyUp key])
      end
  else (Returns (negb bad_event), []).

End Helpers.

(* ===================================================================== *)
(** * Proofs *)
(* ===================================================================== *)

(* ===================================================================== *)
(** ** Properties of assert_color *)
(* ===================================================================== *)

Module UtilsFacts.
Import Utils.

Lemma in_byte_range_spec v : in_byte_range v = true <-> byte_int v.
Proof.
  unfold in_byte_range, byte_int. split.
  - destruct (int_value v) as [z|]; [|discriminate].
    intros H. exists z. split; [reflexivity|lia].
  - intros (z & -> & Hz). apply andb_true_iff. lia.
Qed.

Lemma in_byte_range_false v : in_byte_range v = false -> ~ byte_int v.
Proof. rewrite <- in_byte_range_spec. intros ->. discriminate. Qed.

(** The two assertions on one element pass exactly on a [byte_int]. *)
Lemma check_element c m1 m2 k :
  check (isinstance c [Tint]) m1 (check (in_byte_range c) m2 k) =
  if in_byte_range c then k
  else Raise (AssertionError (if isinstance c [Tint] then m2 else m1)).
Proof.
  unfold in_byte_range. destruct c; try reflexivity; simpl;
    match goal with |- context [?a && ?b] => destruct (a && b) end; reflexivity.
Qed.

Lemma assert_color_items items :
  assert_color (VTuple items) = assert_color (VList items).
Proof. reflexivity. Qed.

Lemma assert_color_too_long r g b a x rest :
  is_assertion_error (assert_color (VList (r :: g :: b :: a :: x :: rest))).
Proof.
  unfold assert_color. cbn -[check length Z.leb].
  change (length (r :: g :: b :: a :: x :: rest)) with (5 + length rest)%nat.
  replace (Z.of_nat (5 + length rest) <=? 4) with false
    by (symmetry; apply Z.leb_gt; lia).
  eexists; reflexivity.
Qed.

Ltac color_steps :=
  unfold assert_color; unfold check at 1 2;
  cbn -[check isinstance in_byte_range]; rewrite !check_element.

Ltac byte_case v H :=
  destruct (in_byte_range v) eqn:H;
  [ apply in_byte_range_spec in H
  | right; split;
    [ apply in_byte_range_false in H;
      intros (? & ? & ? & ? & ? & ? & [? | (? & ? & ?)]); simplify_eq; tauto
    | eexists; reflexivity ] ].

(** [assert_color] decides [valid_items], answering by a normal return or
    by an [AssertionError]. *)
Lemma assert_color_cases items :
  (valid_items items /\ assert_color (VList items) = Return tt) \/
  (~ valid_items items /\ is_assertion_error (assert_color (VList items))).
Proof.
  destruct items as [|r [|g [|b [|a [|x rest]]]]].
  1-3: right; split; [|eexists; reflexivity];
       intros (? & ? & ? & _ & _ & _ & [? | (? & _ & ?)]); discriminate.
  - color_steps.
    byte_case r Hr. byte_case g Hg. byte_case b Hb.
    left. split; [|reflexivity]. exists r, g, b. auto.
  - color_steps.
    byte_case r Hr. byte_case g Hg. byte_case b Hb. byte_case a Ha.
    left. split; [|reflexivity]. exists r, g, b. eauto 10.
  - right. split; [|apply assert_color_too_long].
    intros (? & ? & ? & _ & _ & _ & [? | (? & _ & ?)]); discriminate.
Qed.

Lemma assert_color_decides color :
  (valid_color color /\ assert_color color = Return tt) \/
  (~ valid_color color /\ is_assertion_error (assert_color color)).
Proof.
  destruct color;
    try (right; split;
         [intros (? & [?|?] & _); discriminate | eexists; reflexivity]).
  all: try rewrite assert_color_items.
  all: destruct (assert_color_cases items) as [[Hv Hr] | [Hv Hr]];
    [left | right]; (split; [|exact Hr]).
  all: try (eexists; eauto; fail).
  all: intros (? & [?|?] & ?); simplify_eq; tauto.
Qed.

(** C8. [assert_color] returns normally on every tuple or list of three or
    four integers that all lie in [0,255], and raises an [AssertionError]
    on every other value: another arity, an element that is not an
    integer, an element out of range.  [(10,20,300)] and [(1,2)] fail and
    [(10,20,30,255)] succeeds. *)
Theorem assert_color_correct :
  (forall color, valid_color color <-> assert_color color = Return tt) /\
  (forall color,
     ~ valid_color color <-> is_assertion_error (assert_color color)) /\
  is_assertion_error (assert_color (VTuple [VInt 10; VInt 20; VInt 300])) /\
  assert_color (VTuple [VInt 10; VInt 20; VInt 30; VInt 255]) = Return tt /\
  is_assertion_error (assert_color (VTuple [VInt 1; VInt 2])).
Proof.
  split; [|split; [|split; [|split]]].
  - intros color.
    destruct (assert_color_decides color) as [[Hv Hr] | [Hv [msg Hr]]].
    + tauto.
    + rewrite Hr. split; [tauto | discriminate].
  - intros color.
    destruct (assert_color_decides color) as [[Hv Hr] | [Hv Hr]].
    + split; [tauto|]. rewrite Hr. intros [msg Hm]. discriminate.
    + tauto.
  - eexists; reflexivity.
  - reflexivity.
  - eexists; reflexivity.
Qed.

End UtilsFacts.

(* ===================================================================== *)
(** ** Equations of the monad *)
(* ===================================================================== *)

Lemma result_eta {A} (r : Result A) :
  mkResult (result r) (self_after r) (events r) = r.
Proof. destruct r; reflexivity. Qed.

Lemma bind_ret {A B} (a : A) (k : A -> M B) self :
  bind (ret a) k self = k a self.
Proof. unfold bind, ret; simpl. apply result_eta. Qed.

Lemma bind_raise {A B} (e : exn) (k : A -> M B) self :
  bind (raise e) k self = mkResult (Raise e) self [].
Proof. reflexivity. Qed.

Lemma bind_get_self {A} (k : Sound -> M A) self :
  bind get_self k self = k self self.
Proof. unfold bind, get_self; simpl. apply result_eta. Qed.

Lemma bind_modify {A} f (k : unit -> M A) self :
  bind (modify f) k self = k tt (f self).
Proof. unfold bind, modify; simpl. apply result_eta. Qed.

Lemma bind_assert {A} b msg (k : unit -> M A) self :
  bind (assert_ b msg) k self =
  if b then k tt self else mkResult (Raise (AssertionError msg)) self [].
Proof. destruct b; [apply bind_ret | reflexivity]. Qed.

Lemma bind_emit {A} e (k : unit -> M A) self :
  bind (emit e) k self =
  mkResult (result (k tt self)) (self_after (k tt self))
    (e :: events (k tt self)).
Proof. reflexivity. Qed.

Ltac run :=
  repeat first
    [ rewrite bind_ret | rewrite bind_raise | rewrite bind_get_self
    | rewrite bind_modify | rewrite bind_emit ].

(* ===================================================================== *)
(** ** get_channel *)
(* ===================================================================== *)

Lemma get_channel_eq w self :
  get_channel w self =
  let self' :=
    if _uniquechannel self then
      match _channel self with
      | None => set__channel (mixer_find_channel w) self
      | Some _ => self
      end
    else set__channel (mixer_find_channel w) self in
  mkResult (Return (_channel self')) self' [].
Proof.
  unfold get_channel. run.
  destruct (_uniquechannel self); [destruct (_channel self)|]; run; reflexivity.
Qed.

(** Unique mode with a cached handle: the handle is returned and nothing
    changes, whatever the mixer finds. *)
Lemma get_channel_pinned w self c :
  _uniquechannel self = true -> _channel self = Some c ->
  get_channel w self = mkResult (Return (Some c)) self [].
Proof. intros Hu Hc. rewrite get_channel_eq, Hu, Hc. simpl. rewrite Hc. reflexivity. Qed.

(** Unique mode without a cached handle: what the mixer finds is cached
    and returned. *)
Lemma get_channel_first w self :
  _uniquechannel self = true -> _channel self = None ->
  get_channel w self =
  mkResult (Return (mixer_find_channel w))
    (set__channel (mixer_find_channel w) self) [].
Proof. intros Hu Hc. rewrite get_channel_eq, Hu, Hc. reflexivity. Qed.

(** Shared mode: what the mixer finds is stored and returned. *)
Lemma get_channel_shared w self :
  _uniquechannel self = false ->
  get_channel w self =
  mkResult (Return (mixer_find_channel w))
    (set__channel (mixer_find_channel w) self) [].
Proof. intros Hu. rewrite get_channel_eq, Hu. reflexivity. Qed.

(** [get_channel] returns, issues nothing and touches the cached handle
    only. *)
Lemma get_channel_frame w self :
  exists c,
    get_channel w self = mkResult (Return c) (set__channel c self) [].
Proof.
  rewrite get_channel_eq.
  destruct (_uniquechannel self); [destruct (_channel self) eqn:E|];
    simpl; eexists; try reflexivity.
  rewrite E. destruct self; simpl in *; subst; reflexivity.
Qed.

Lemma get_channel_calls_step w ws self c self1 cs self2 :
  get_channel w self = mkResult (Return c) self1 [] ->
  get_channel_calls ws self1 = mkResult (Return cs) self2 [] ->
  get_channel_calls (w :: ws) self = mkResult (Return (c :: cs)) self2 [].
Proof.
  intros H1 H2. cbn [get_channel_calls]. unfold bind. rewrite H1. simpl.
  rewrite H2. reflexivity.
Qed.

(** A row of calls returns, and issues nothing. *)
Lemma get_channel_calls_total ws : forall self,
  exists cs self',
    get_channel_calls ws self = mkResult (Return cs) self' [].
Proof.
  induction ws as [|w ws IH]; intros self; [eexists _, _; reflexivity|].
  destruct (get_channel_frame w self) as [c Hc].
  destruct (IH (set__channel c self)) as (cs & self' & Hcs).
  eexists _, _. eapply get_channel_calls_step; eassumption.
Qed.

Lemma get_channel_calls_pinned ws self c :
  _uniquechannel self = true -> _channel self = Some c ->
  get_channel_calls ws self =
  mkResult (Return (replicate (length ws) (Some c))) self [].
Proof.
  intros Hu Hc. induction ws as [|w ws IH]; [reflexivity|].
  eapply get_channel_calls_step; [apply get_channel_pinned|]; eassumption.
Qed.

Lemma set__channel_same self : set__channel (_channel self) self = self.
Proof. destruct self; reflexivity. Qed.

Lemma get_channel_calls_none ws self :
  _uniquechannel self = true -> _channel self = None ->
  Forall (fun w => mixer_find_channel w = None) ws ->
  get_channel_calls ws self =
  mkResult (Return (replicate (length ws) None)) self [].
Proof.
  intros Hu Hc Hws. induction Hws as [|w ws Hw Hws IH]; [reflexivity|].
  eapply get_channel_calls_step; [|exact IH].
  rewrite (get_channel_first w self Hu Hc), Hw, <- Hc, set__channel_same.
  reflexivity.
Qed.

Lemma get_channel_calls_app ws1 ws2 : forall self cs1 self1 cs2 self2,
  get_channel_calls ws1 self = mkResult (Return cs1) self1 [] ->
  get_channel_calls ws2 self1 = mkResult (Return cs2) self2 [] ->
  get_channel_calls (ws1 ++ ws2) self = mkResult (Return (cs1 ++ cs2)%list) self2 [].
Proof.
  induction ws1 as [|w ws1 IH]; intros self cs1 self1 cs2 self2 H1 H2.
  - simpl in H1. injection H1 as <- <-. exact H2.
  - destruct (get_channel_frame w self) as [c Hc].
    destruct (get_channel_calls_total ws1 (set__channel c self))
      as (cs & self' & Hcs).
    rewrite (get_channel_calls_step _ _ _ _ _ _ _ Hc Hcs) in H1.
    injection H1 as <- <-.
    rewrite <- !app_comm_cons.
    eapply get_channel_calls_step; [exact Hc|].
    eapply IH; eassumption.
Qed.

Lemma get_channel_calls_shared ws : forall self,
  _uniquechannel self = false ->
  result (get_channel_calls ws self) = Return (map mixer_find_channel ws).
Proof.
  induction ws as [|w ws IH]; intros self Hu; [reflexivity|].
  destruct (get_channel_calls_total ws
              (set__channel (mixer_find_channel w) self)) as (cs & self' & Hcs).
  rewrite (get_channel_calls_step _ _ _ _ _ _ _
             (get_channel_shared w self Hu) Hcs).
  specialize (IH (set__channel (mixer_find_channel w) self) Hu).
  rewrite Hcs in IH. simpl in *. injection IH as ->. reflexivity.
Qed.

Lemma init_returns w g uc fr sz ch bf dn ac fi self g' evs :
  __init__ w g uc fr sz ch bf dn ac fi = (Return self, g', evs) ->
  _channel self = None /\ _uniquechannel self = truth uc /\
  _type_sounds self = TYPE_SOUNDS /\ _last_play self = "" /\
  _last_time self = 0%float /\
  forall k, k ∈ TYPE_SOUNDS -> _sound self !! k = Some EmptyDict.
Proof.
  unfold __init__.
  repeat match goal with
         | |- context [if negb ?b then _ else _] => destruct b; simpl negb; cbv iota
         end; try discriminate.
  intros H. injection H as <- _ _. simpl.
  repeat split.
  intros k Hk. unfold TYPE_SOUNDS in Hk.
  repeat (apply elem_of_cons in Hk as [-> | Hk]; [reflexivity|]).
  inversion Hk.
Qed.

(** C4. A registry constructed with [uniquechannel=True] caches the first
    channel the mixer finds that is not [None]: the calls before it return
    [None] (as do all calls while the mixer finds none), that call and
    every later call return the cached handle, whatever the mixer finds
    later.  Constructed with
    [uniquechannel=False], every call returns what the mixer found on that
    call. *)
Theorem get_channel_pins_first_channel
    w0 g (unique : bool) fr sz ch bf dn ac fi self g' evs :
  __init__ w0 g (VBool unique) fr sz ch bf dn ac fi = (Return self, g', evs) ->
  (unique = true ->
   forall ws1 w ws2 c,
     Forall (fun w => mixer_find_channel w = None) ws1 ->
     mixer_find_channel w = Some c ->
     let r := get_channel_calls (ws1 ++ w :: ws2) self in
     result r =
       Return (replicate (length ws1) None ++
               Some c :: replicate (length ws2) (Some c))%list /\
     _channel (self_after r) = Some c) /\
  (unique = true ->
   forall ws,
     Forall (fun w => mixer_find_channel w = None) ws ->
     result (get_channel_calls ws self) = Return (replicate (length ws) None)) /\
  (unique = false ->
   forall ws,
     result (get_channel_calls ws self) = Return (map mixer_find_channel ws)).
Proof.
  intros Hinit. apply init_returns in Hinit as (Hc & Hu & _). simpl in Hu.
  split.
  - intros -> ws1 w ws2 c Hws1 Hw.
    pose proof (get_channel_calls_none ws1 self Hu Hc Hws1) as H1.
    pose proof (get_channel_first w self Hu Hc) as Hfirst. rewrite Hw in Hfirst.
    pose proof (get_channel_calls_pinned ws2 (set__channel (Some c) self) c
                  Hu eq_refl) as H2.
    pose proof (get_channel_calls_step _ _ _ _ _ _ _ Hfirst H2) as H3.
    cbv zeta. rewrite (get_channel_calls_app _ _ _ _ _ _ _ H1 H3).
    split; reflexivity.
  - split.
    + intros -> ws Hws. rewrite (get_channel_calls_none ws self Hu Hc Hws).
      reflexivity.
    + intros -> ws. apply get_channel_calls_shared. exact Hu.
Qed.

Lemma get_channel_pins_first_channel_witness :
  result (get_channel_calls
            [Demo.world None 0; Demo.world (Some 3%nat) 0;
             Demo.world (Some 5%nat) 0; Demo.world None 0]
            (Demo.registry true))
  = Return [None; Some 3%nat; Some 3%nat; Some 3%nat] /\
  result (get_channel_calls
            [Demo.world None 0; Demo.world (Some 3%nat) 0;
             Demo.world (Some 5%nat) 0; Demo.world None 0]
            (Demo.registry false))
  = Return [None; Some 3%nat; Some 5%nat; None].
Proof.
  split.
  - refine (proj1
      (proj1 (get_channel_pins_first_channel (Demo.world None 0) false true
                (VInt 22050) (VInt (-16)) (VInt 2) (VInt 4096) (VStr "")
                (VInt 0) (VBool false) (Demo.registry true) true
                (snd (Demo.new_sound true)) eq_refl)
         eq_refl [Demo.world None 0] (Demo.world (Some 3%nat) 0)
         [Demo.world (Some 5%nat) 0; Demo.world None 0] 3%nat
         _ eq_refl)).
    repeat constructor.
  - exact (proj2 (proj2 (get_channel_pins_first_channel (Demo.world None 0) false false
                (VInt 22050) (VInt (-16)) (VInt 2) (VInt 4096) (VStr "")
                (VInt 0) (VBool false) (Demo.registry false) true
                (snd (Demo.new_sound false)) eq_refl))
         eq_refl
         [Demo.world None 0; Demo.world (Some 3%nat) 0;
          Demo.world (Some 5%nat) 0; Demo.world None 0]).
Defined.

(* ===================================================================== *)
(** ** _play_sound *)
(* ===================================================================== *)

Lemma overlap_gate_set__channel c self clip t :
  overlap_gate (set__channel c self) clip t = overlap_gate self clip t.
Proof. reflexivity. Qed.


(** [_play_sound] on a clip for which a channel was found. *)
Lemma _play_sound_clip w self c ch self1 :
  get_channel w self = mkResult (Return (Some ch)) self1 [] ->
  _play_sound w (Some (ClipDict c)) self =
  mkResult (Return true) (set__last (clip_type c) (time_time w) self1)
    (if overlap_gate self c (time_time w)
     then playback w (_uniquechannel self) ch c else []).
Proof.
  intros H. destruct (get_channel_frame w self) as [c' Hc'].
  rewrite Hc' in H. injection H as -> <-.
  unfold _play_sound, bind at 1. rewrite Hc'. cbv iota beta. simpl result.
  cbv iota beta. simpl self_after. simpl events. run.
  rewrite overlap_gate_set__channel.
  destruct (overlap_gate self c (time_time w)); [|reflexivity].
  unfold playback. change (_uniquechannel (set__channel (Some ch) self))
    with (_uniquechannel self).
  destruct (_uniquechannel self), (stop_raises w), (play_raises w); reflexivity.
Qed.

(** [_play_sound] when no channel was found. *)
Lemma _play_sound_busy w self c self1 :
  get_channel w self = mkResult (Return None) self1 [] ->
  _play_sound w (Some (ClipDict c)) self = mkResult (Return false) self1 [].
Proof.
  intros H. unfold _play_sound, bind. rewrite H. reflexivity.
Qed.



Lemma sound_entry_bound key self d :
  _sound self !! key = Some d ->
  sound_entry key self = mkResult (Return d) self [].
Proof. intros H. unfold sound_entry. run. rewrite H. reflexivity. Qed.

(** A play of the sound bound to a key, when a channel is found. *)
Lemma play_clip w key self c ch self1 :
  _sound self !! key = Some (ClipDict c) ->
  get_channel w self = mkResult (Return (Some ch)) self1 [] ->
  play w key self =
  mkResult (Return tt) (set__last (clip_type c) (time_time w) self1)
    (if overlap_gate self c (time_time w)
     then playback w (_uniquechannel self) ch c else []).
Proof.
  intros Hk Hch. unfold play, bind.
  rewrite (sound_entry_bound key self _ Hk). cbn [result self_after events].
  rewrite (_play_sound_clip w self c ch self1 Hch). simpl.
  rewrite app_nil_r. reflexivity.
Qed.



(* ===================================================================== *)
(** ** Overlap suppression *)
(* ===================================================================== *)

(** A play in shared-channel mode, when the mixer finds a channel. *)
Lemma play_shared w key self c ch :
  _uniquechannel self = false ->
  _sound self !! key = Some (ClipDict c) ->
  mixer_find_channel w = Some ch ->
  play w key self =
  mkResult (Return tt)
    (set__last (clip_type c) (time_time w) (set__channel (Some ch) self))
    (if overlap_gate self c (time_time w) then [play_of ch c] else []).
Proof.
  intros Hu Hk Hw.
  pose proof (get_channel_shared w self Hu) as Hch. rewrite Hw in Hch.
  rewrite (play_clip w key self c ch _ Hk Hch). unfold playback.
  rewrite Hu. reflexivity.
Qed.

(** The gate on a sound that differs from the last one played. *)
Lemma overlap_gate_other self c t :
  _last_play self <> clip_type c -> overlap_gate self c t = true.
Proof.
  intros H. unfold overlap_gate.
  destruct (String.eqb_spec (clip_type c) (_last_play self)) as [E|E];
    [congruence | reflexivity].
Qed.

(** The gate on the sound played last, in shared-channel mode. *)
Lemma overlap_gate_same self c t :
  _last_play self = clip_type c -> _uniquechannel self = false ->
  overlap_gate self c t =
  float_ge (t - _last_time self)%float (0.2 * clip_length c)%float.
Proof.
  intros H Hu. unfold overlap_gate. rewrite H, String.eqb_refl, Hu.
  simpl. apply orb_false_r.
Qed.

(** C1 (amended). A clip of one second bound to a sound type, shared-channel
    mode, a channel found at each call, nothing of that type played
    before, and three plays at the times 0, 0.1 and [t3].  The play at 0
    issues a play call; the play at 0.1 issues none and sets the last
    time to 0.1; the play at [t3] issues a play call exactly when the
    binary64 difference [t3 - 0.1] is at least [0.2 * 1.0].  At [t3 = 0.3]
    it is not (the difference is 0.19999999999999998): one play call in
    all. *)
Theorem overlap_suppression_three_plays key self c w1 w2 w3 ch1 ch2 ch3 :
  _uniquechannel self = false ->
  _sound self !! key = Some (ClipDict c) ->
  clip_length c = 1%float ->
  _last_play self <> clip_type c ->
  mixer_find_channel w1 = Some ch1 ->
  mixer_find_channel w2 = Some ch2 ->
  mixer_find_channel w3 = Some ch3 ->
  time_time w1 = 0%float ->
  time_time w2 = 0.1%float ->
  let two := (play w1 key ;; play w2 key) self in
  let three := (play w1 key ;; play w2 key ;; play w3 key) self in
  events two = [play_of ch1 c] /\
  _last_play (self_after two) = clip_type c /\
  _last_time (self_after two) = 0.1%float /\
  (float_ge (time_time w3 - 0.1) (0.2 * 1) = true ->
   events three = [play_of ch1 c; play_of ch3 c]) /\
  (float_ge (time_time w3 - 0.1) (0.2 * 1) = false ->
   events three = [play_of ch1 c]) /\
  (time_time w3 = 0.3%float -> events three = [play_of ch1 c]).
Proof.
  intros Hu Hk Hlen Hlast Hw1 Hw2 Hw3 Ht1 Ht2. cbv zeta.
  (* first play *)
  pose proof (play_shared w1 key self c ch1 Hu Hk Hw1) as H1.
  rewrite (overlap_gate_other self c _ Hlast), Ht1 in H1.
  set (self1 := set__last (clip_type c) 0 (set__channel (Some ch1) self)) in *.
  (* second play *)
  pose proof (play_shared w2 key self1 c ch2 Hu Hk Hw2) as H2.
  rewrite (overlap_gate_same self1 c _ eq_refl Hu), Ht2, Hlen in H2.
  change (float_ge (0.1 - _last_time self1) (0.2 * 1)) with false in H2.
  set (self2 := set__last (clip_type c) 0.1 (set__channel (Some ch2) self1)) in *.
  (* third play *)
  pose proof (play_shared w3 key self2 c ch3 Hu Hk Hw3) as H3.
  rewrite (overlap_gate_same self2 c _ eq_refl Hu), Hlen in H3.
  change (_last_time self2) with 0.1%float in H3.
  assert (Htwo : (play w1 key ;; play w2 key) self =
                 mkResult (Return tt) self2 [play_of ch1 c]).
  { unfold bind. rewrite H1. cbn [result self_after events].
    rewrite H2. reflexivity. }
  assert (Hthree : (play w1 key ;; play w2 key ;; play w3 key) self =
    mkResult (Return tt) (self_after (play w3 key self2))
      (play_of ch1 c :: events (play w3 key self2))).
  { unfold bind. rewrite H1. cbn [result self_after events].
    rewrite H2. cbn [result self_after events]. rewrite H3. reflexivity. }
  rewrite Htwo, Hthree, H3. cbn [result self_after events].
  split; [reflexivity|]. split; [reflexivity|]. split; [reflexivity|].
  split; [|split].
  - intros ->. reflexivity.
  - intros ->. reflexivity.
  - intros ->. reflexivity.
Qed.

Lemma overlap_suppression_three_plays_witness :
  events (Demo.three_clicks 0 0.1 0.35) =
    [play_of 0%nat (Demo.clip SOUND_TYPE_CLICK_MOUSE);
     play_of 0%nat (Demo.clip SOUND_TYPE_CLICK_MOUSE)] /\
  events (Demo.three_clicks 0 0.1 0.3) =
    [play_of 0%nat (Demo.clip SOUND_TYPE_CLICK_MOUSE)].
Proof.
  split.
  - refine (proj1 (proj2 (proj2 (proj2
      (overlap_suppression_three_plays SOUND_TYPE_CLICK_MOUSE
         (Demo.bound false SOUND_TYPE_CLICK_MOUSE)
         (Demo.clip SOUND_TYPE_CLICK_MOUSE)
         (Demo.world (Some 0%nat) 0) (Demo.world (Some 0%nat) 0.1)
         (Demo.world (Some 0%nat) 0.35) 0%nat 0%nat 0%nat
         _ _ _ _ _ _ _ _ _)))) _);
      try (vm_compute; reflexivity).
    vm_compute. discriminate.
  - refine (proj2 (proj2 (proj2 (proj2 (proj2
      (overlap_suppression_three_plays SOUND_TYPE_CLICK_MOUSE
         (Demo.bound false SOUND_TYPE_CLICK_MOUSE)
         (Demo.clip SOUND_TYPE_CLICK_MOUSE)
         (Demo.world (Some 0%nat) 0) (Demo.world (Some 0%nat) 0.1)
         (Demo.world (Some 0%nat) 0.3) 0%nat 0%nat 0%nat
         _ _ _ _ _ _ _ _ _))))) _);
      try (vm_compute; reflexivity).
    vm_compute. discriminate.
Defined.

(** C1, as stated, fails: the plays at 0, 0.1 and 0.3 of a one-second clip
    issue one play call, not two, because the binary64 difference
    [0.3 - 0.1] is below [0.2 * 1.0]. *)
Lemma three_plays_issue_one_call :
  length (play_calls (events (Demo.three_clicks 0 0.1 0.3))) = 1%nat /\
  float_ge (0.3 - 0.1) (0.2 * 1) = false.
Proof. split; vm_compute; reflexivity. Qed.

(* ===================================================================== *)
(** ** Comparisons of binary64 floats *)
(* ===================================================================== *)

Lemma SFltb_not_SFleb a b : SFltb a b = true -> SFleb b a = false.
Proof.
  unfold SFltb, SFleb.
  destruct a as [sa|sa| |sa ma ea], b as [sb|sb| |sb mb eb]; simpl;
    try destruct sa; try destruct sb; simpl;
    try discriminate; try reflexivity.
  all: rewrite (Z.compare_antisym ea eb);
    destruct (ea ?= eb)%Z; simpl; try discriminate; try reflexivity.
  all: change (Pos.compare_cont Eq ma mb) with (Pos.compare ma mb);
    change (Pos.compare_cont Eq mb ma) with (Pos.compare mb ma);
    rewrite (Pos.compare_antisym ma mb);
    destruct (Pos.compare ma mb); simpl; try discriminate; reflexivity.
Qed.

(** [x < y] excludes [y <= x]. *)
Lemma ltb_not_leb x y : PrimFloat.ltb x y = true -> PrimFloat.leb y x = false.
Proof. rewrite ltb_spec, leb_spec. apply SFltb_not_SFleb. Qed.

(* ===================================================================== *)
(** ** The assertions of set_sound *)
(* ===================================================================== *)

Lemma isinstance_str v : isinstance v [Tstr] = true <-> exists s, v = VStr s.
Proof.
  destruct v; simpl; split; try discriminate; eauto;
    intros [? ?]; discriminate.
Qed.

Lemma isinstance_float v :
  isinstance v [Tfloat] = true <-> exists f, v = VFloat f.
Proof.
  destruct v; simpl; split; try discriminate; eauto;
    intros [? ?]; discriminate.
Qed.

Lemma isinstance_int v :
  isinstance v [Tint] = true <-> exists z, int_value v = Some z.
Proof.
  destruct v; simpl; split; try discriminate; eauto;
    intros [? ?]; discriminate.
Qed.

Lemma isinstance_str_or_None v :
  isinstance v [Tstr; TNoneType] = true <-> v = VNone \/ exists s, v = VStr s.
Proof.
  destruct v; simpl; split; try discriminate; eauto;
    intros [? | [? ?]]; discriminate.
Qed.

Lemma count_ok_spec v :
  isinstance v [Tint] && ge_zero v = true <-> count_ok v.
Proof.
  unfold count_ok. destruct v; simpl; split; intros H; try discriminate;
    try (destruct H as (? & ? & ?); discriminate).
  - exists (Z.b2z b). split; [reflexivity | destruct b; simpl; lia].
  - destruct b; reflexivity.
  - exists z. split; [reflexivity | lia].
  - destruct H as (? & [= <-] & ?). lia.
Qed.

Lemma millis_ok_spec v :
  isinstance v [Tint; Tfloat] && ge_zero v = true <-> millis_ok v.
Proof.
  unfold millis_ok. split.
  - intros H. destruct v; try discriminate.
    + left. apply count_ok_spec. exact H.
    + left. apply count_ok_spec. exact H.
    + right. eexists. split; [reflexivity | exact H].
  - intros [H | (f & -> & H)].
    + apply count_ok_spec in H. destruct v; try discriminate; exact H.
    + exact H.
Qed.

Lemma volume_ok_spec v :
  isinstance v [Tfloat] && (one_ge v && ge_zero v) = true <-> volume_ok v.
Proof.
  unfold volume_ok. destruct v; simpl; split; try discriminate;
    try (intros (? & ? & ?); discriminate).
  - unfold float_ge. intros [? ?]%andb_true_iff. eauto.
  - unfold float_ge. intros (? & [= <-] & -> & ->). reflexivity.
Qed.

Lemma negative_not_count_ok v : negative v -> ~ count_ok v.
Proof.
  intros [(z & Hz & Hneg) | (f & -> & _)] (z' & Hz' & Hpos).
  - rewrite Hz in Hz'. injection Hz' as <-. lia.
  - discriminate.
Qed.

Lemma negative_not_millis_ok v : negative v -> ~ millis_ok v.
Proof.
  intros Hn [Hc | (f & -> & Hf)]; [exact (negative_not_count_ok v Hn Hc)|].
  destruct Hn as [(z & Hz & _) | (f' & [= <-] & Hlt)]; [discriminate|].
  apply ltb_not_leb in Hlt. congruence.
Qed.

Lemma outside_unit_not_volume_ok v : outside_unit v -> ~ volume_ok v.
Proof.
  intros [(z & Hz & _) | (f & -> & Hf)] (f' & Hv & H0 & H1).
  - subst v. discriminate.
  - injection Hv as <-.
    destruct Hf as [Hlt | Hlt]; apply ltb_not_leb in Hlt; congruence.
Qed.

Section SetSound.
Variables (w : World) (self : Sound).
Variables (sound_type sound_file volume loops maxtime fade_ms : pyval).

(** [set_sound] fails on an assertion, or its arguments are well formed
    and it runs its (set_sound_checked w type sound_file vol volume loops maxtime fade_ms self). *)
Lemma set_sound_asserts :
  (~ checked_args sound_type sound_file volume loops maxtime fade_ms /\
   assertion_failed self (set_sound w sound_type sound_file volume loops maxtime fade_ms self)) \/
  (checked_args sound_type sound_file volume loops maxtime fade_ms /\
   exists type vol, sound_type = VStr type /\ volume = VFloat vol /\
     (set_sound w sound_type sound_file volume loops maxtime fade_ms self) = set_sound_checked w type sound_file vol volume loops maxtime
              fade_ms self).
Proof.
  unfold set_sound, checked_args, assertion_failed.
  rewrite !bind_assert.
  destruct (isinstance sound_type [Tstr]) eqn:E1.
  2: { left. split; [|eauto]. intros (H & _).
       apply isinstance_str in H. congruence. }
  destruct (isinstance sound_file [Tstr; TNoneType]) eqn:E2.
  2: { left. split; [|eauto]. intros (_ & H & _).
       apply isinstance_str_or_None in H. congruence. }
  destruct (isinstance volume [Tfloat]) eqn:E3.
  2: { left. split; [|eauto]. intros (_ & _ & H & _).
       apply volume_ok_spec in H. rewrite E3 in H. discriminate. }
  destruct (isinstance loops [Tint]) eqn:E4.
  2: { left. split; [|eauto]. intros (_ & _ & _ & H & _).
       apply count_ok_spec in H. rewrite E4 in H. discriminate. }
  destruct (isinstance maxtime [Tint; Tfloat]) eqn:E5.
  2: { left. split; [|eauto]. intros (_ & _ & _ & _ & H & _).
       apply millis_ok_spec in H. rewrite E5 in H. discriminate. }
  destruct (isinstance fade_ms [Tint; Tfloat]) eqn:E6.
  2: { left. split; [|eauto]. intros (_ & _ & _ & _ & _ & H).
       apply millis_ok_spec in H. rewrite E6 in H. discriminate. }
  destruct (ge_zero loops) eqn:E7.
  2: { left. split; [|eauto]. intros (_ & _ & _ & H & _).
       apply count_ok_spec in H. rewrite E4, E7 in H. discriminate. }
  destruct (ge_zero maxtime) eqn:E8.
  2: { left. split; [|eauto]. intros (_ & _ & _ & _ & H & _).
       apply millis_ok_spec in H. rewrite E5, E8 in H. discriminate. }
  destruct (ge_zero fade_ms) eqn:E9.
  2: { left. split; [|eauto]. intros (_ & _ & _ & _ & _ & H).
       apply millis_ok_spec in H. rewrite E6, E9 in H. discriminate. }
  destruct (one_ge volume && ge_zero volume) eqn:E10.
  2: { left. split; [|eauto]. intros (_ & _ & H & _).
       apply volume_ok_spec in H. rewrite E3, E10 in H. discriminate. }
  right.
  pose proof (proj1 (isinstance_str _) E1) as [type ->].
  pose proof (proj1 (isinstance_float _) E3) as [vol ->].
  split.
  - split; [eauto|]. split; [apply isinstance_str_or_None, E2|].
    split; [apply volume_ok_spec; rewrite E3, E10; reflexivity|].
    split; [apply count_ok_spec; rewrite E4, E7; reflexivity|].
    split; apply millis_ok_spec; [rewrite E5, E8 | rewrite E6, E9];
      reflexivity.
  - exists type, vol. auto.
Qed.

(** A failed type assertion carries no message. *)
Lemma set_sound_int_volume :
  (exists z, int_value volume = Some z) ->
  (set_sound w sound_type sound_file volume loops maxtime fade_ms self) = mkResult (Raise (AssertionError "")) self [].
Proof.
  intros [z Hz]. unfold set_sound. rewrite !bind_assert.
  destruct (isinstance sound_type [Tstr]); [|reflexivity].
  destruct (isinstance sound_file [Tstr; TNoneType]); [|reflexivity].
  destruct volume; try discriminate; reflexivity.
Qed.
End SetSound.

Section SetSoundChecked.
Variables (w : World) (self : Sound) (type : string) (vol : float).
Variables (sound_file volume loops maxtime fade_ms : pyval).

Lemma checked_unknown_type :
  type ∉ _type_sounds self ->
  (set_sound_checked w type sound_file vol volume loops maxtime fade_ms self) = mkResult
           (Raise (ValueError "sound type not valid, check the manual"))
           self [].
Proof.
  intros H. unfold set_sound_checked. run.
  rewrite bool_decide_eq_false_2 by exact H. reflexivity.
Qed.

Hypothesis known : type ∈ _type_sounds self.

Lemma checked_None :
  sound_file = VNone ->
  (set_sound_checked w type sound_file vol volume loops maxtime fade_ms self) = mkResult (Return false) (set__sound type EmptyDict self) [].
Proof.
  intros Hf. unfold set_sound_checked. run.
  rewrite bool_decide_eq_true_2 by exact known. rewrite Hf. simpl negb.
  cbv iota. run. reflexivity.
Qed.

Lemma checked_missing_file file :
  sound_file = VStr file -> path_isfile w file = false ->
  (set_sound_checked w type sound_file vol volume loops maxtime fade_ms self) = mkResult
           (Raise (IOError ("sound file " +:+ dquote +:+ file +:+ dquote
                              +:+ " does not exist")))
           self [].
Proof.
  intros Hf Hp. unfold set_sound_checked. run.
  rewrite bool_decide_eq_true_2 by exact known. rewrite Hf, Hp. reflexivity.
Qed.

Lemma checked_bad_format file :
  sound_file = VStr file -> path_isfile w file = true ->
  mixer_Sound w file = None ->
  (set_sound_checked w type sound_file vol volume loops maxtime fade_ms self) = mkResult (Return false) (set__sound type EmptyDict self)
           [Warn "the sound format is not valid, the sound has been disabled"].
Proof.
  intros Hf Hp Hs. unfold set_sound_checked. run.
  rewrite bool_decide_eq_true_2 by exact known. rewrite Hf, Hp, Hs.
  reflexivity.
Qed.

Lemma checked_loaded file sound_data :
  sound_file = VStr file -> path_isfile w file = true ->
  mixer_Sound w file = Some sound_data ->
  (set_sound_checked w type sound_file vol volume loops maxtime fade_ms self) = mkResult (Return true)
           (set__sound type (ClipDict
              {| clip_file := sound_set_volume vol sound_data;
                 clip_path := file;
                 clip_type := type;
                 clip_length := sound_length sound_data;
                 clip_volume := volume;
                 clip_loops := loops;
                 clip_maxtime := maxtime;
                 clip_fade_ms := fade_ms |}) self) [].
Proof.
  intros Hf Hp Hs. unfold set_sound_checked. run.
  rewrite bool_decide_eq_true_2 by exact known. rewrite Hf, Hp, Hs.
  reflexivity.
Qed.
End SetSoundChecked.

(** The body of [set_sound] raises and leaves the object as it was, or
    returns after storing an entry under [type]. *)
Lemma set_sound_checked_effect w self type vol sound_file volume loops maxtime
    fade_ms :
  let body :=
    set_sound_checked w type sound_file vol volume loops maxtime fade_ms self in
  (exists e, body = mkResult (Raise e) self []) \/
  (exists b d evs, body = mkResult (Return b) (set__sound type d self) evs).
Proof.
  cbv zeta.
  destruct (decide (type ∈ _type_sounds self)) as [Hin | Hout].
  2: { left. eexists. apply checked_unknown_type. exact Hout. }
  destruct sound_file as [| | | |file| | |] eqn:Hf;
    try (left; eexists; unfold set_sound_checked; run;
         rewrite bool_decide_eq_true_2 by exact Hin; reflexivity).
  - right. eexists _, _, _. apply checked_None; auto.
  - destruct (path_isfile w file) eqn:Hp.
    2: { left. eexists. eapply checked_missing_file; eauto. }
    destruct (mixer_Sound w file) as [sd|] eqn:Hs.
    + right. eexists _, _, _. eapply checked_loaded; eauto.
    + right. eexists _, _, _. eapply checked_bad_format; eauto.
Qed.

(** C5. For a sound type of the registry and arguments that pass the
    assertions: with [None] as file, [set_sound] clears the entry of the
    type and returns [False]; with a file that exists and does not decode,
    it warns, clears the entry and returns [False]; with a file that
    decodes, it stores the clip with its parameters under the type and
    returns [True].  None of the three raises. *)
Theorem set_sound_binds w self type sound_file volume loops maxtime fade_ms :
  _type_sounds self = TYPE_SOUNDS ->
  type ∈ TYPE_SOUNDS ->
  volume_ok volume -> count_ok loops -> millis_ok maxtime ->
  millis_ok fade_ms ->
  let r :=
    set_sound w (VStr type) sound_file volume loops maxtime fade_ms self in
  (sound_file = VNone ->
   result r = Return false /\
   _sound (self_after r) !! type = Some EmptyDict /\
   events r = []) /\
  (forall file,
     sound_file = VStr file -> path_isfile w file = true ->
     mixer_Sound w file = None ->
     result r = Return false /\
     _sound (self_after r) !! type = Some EmptyDict /\
     events r =
       [Warn "the sound format is not valid, the sound has been disabled"]) /\
  (forall file sound_data,
     sound_file = VStr file -> path_isfile w file = true ->
     mixer_Sound w file = Some sound_data ->
     result r = Return true /\
     events r = [] /\
     exists vol, volume = VFloat vol /\
       _sound (self_after r) !! type =
         Some (ClipDict
                 {| clip_file := sound_set_volume vol sound_data;
                    clip_path := file;
                    clip_type := type;
                    clip_length := sound_length sound_data;
                    clip_volume := volume;
                    clip_loops := loops;
                    clip_maxtime := maxtime;
                    clip_fade_ms := fade_ms |})).
Proof.
  intros Htypes Hin Hv Hl Hm Hf. cbv zeta.
  rewrite <- Htypes in Hin.
  destruct (set_sound_asserts w self (VStr type) sound_file volume loops
              maxtime fade_ms) as [[Hbad _] | [Hok (ty & vol & [= <-] & -> & ->)]].
  - split; [|split]; intros; exfalso; apply Hbad;
      (split; [eauto|]); (split; [subst; eauto|]); auto.
  - split; [|split].
    + intros ->. rewrite checked_None by auto. simpl.
      rewrite lookup_insert_eq. auto.
    + intros file -> Hp Hs. rewrite (checked_bad_format _ _ _ _ _ _ _ _ _ Hin file)
        by auto. simpl. rewrite lookup_insert_eq. auto.
    + intros file sd -> Hp Hs.
      rewrite (checked_loaded _ _ _ _ _ _ _ _ _ Hin file sd) by auto. simpl.
      rewrite lookup_insert_eq. eauto.
Qed.

Lemma set_sound_binds_witness :
  result (set_sound (Demo.world None 0) (VStr SOUND_TYPE_ERROR)
            (VStr "error.ogg") (VFloat 0.5) (VInt 0) (VInt 0) (VFloat 0)
            (Demo.registry true)) = Return true /\
  result (set_sound (Demo.no_codec (Demo.world None 0)) (VStr SOUND_TYPE_ERROR)
            (VStr "error.ogg") (VFloat 0.5) (VInt 0) (VInt 0) (VFloat 0)
            (Demo.bound true SOUND_TYPE_ERROR)) = Return false /\
  result (set_sound (Demo.world None 0) (VStr SOUND_TYPE_ERROR)
            VNone (VFloat 0.5) (VInt 0) (VInt 0) (VFloat 0)
            (Demo.bound true SOUND_TYPE_ERROR)) = Return false.
Proof.
  assert (Hin : SOUND_TYPE_ERROR ∈ TYPE_SOUNDS)
    by (unfold TYPE_SOUNDS; set_solver).
  assert (Hv : volume_ok (VFloat 0.5)) by (eexists; repeat split).
  assert (Hl : count_ok (VInt 0)) by (exists 0; split; [reflexivity|lia]).
  assert (Hm : millis_ok (VFloat 0)) by (right; eexists; repeat split).
  split; [|split].
  - exact (proj1 (proj2 (proj2
      (set_sound_binds (Demo.world None 0) (Demo.registry true)
         SOUND_TYPE_ERROR (VStr "error.ogg") (VFloat 0.5) (VInt 0) (VInt 0)
         (VFloat 0) eq_refl Hin Hv Hl (or_introl Hl) Hm))
      "error.ogg" Demo.one_second eq_refl eq_refl eq_refl)).
  - exact (proj1 (proj1 (proj2
      (set_sound_binds (Demo.no_codec (Demo.world None 0))
         (Demo.bound true SOUND_TYPE_ERROR)
         SOUND_TYPE_ERROR (VStr "error.ogg") (VFloat 0.5) (VInt 0) (VInt 0)
         (VFloat 0) eq_refl Hin Hv Hl (or_introl Hl) Hm))
      "error.ogg" eq_refl eq_refl eq_refl)).
  - exact (proj1 (proj1
      (set_sound_binds (Demo.world None 0) (Demo.bound true SOUND_TYPE_ERROR)
         SOUND_TYPE_ERROR VNone (VFloat 0.5) (VInt 0) (VInt 0)
         (VFloat 0) eq_refl Hin Hv Hl (or_introl Hl) Hm) eq_refl)).
Defined.

(** C6. [set_sound] raises an [AssertionError] for every volume outside
    [0,1] and every negative [loops], [maxtime] or [fade_ms]; for a sound
    type that is not one of the nine it raises an invalid-argument error,
    the [ValueError] as soon as the other arguments are well formed; for a
    path that is not a file it raises, the [IOError] as soon as the other
    arguments are well formed and the type is known.  The exceptions are
    the outcome of the call: the caller receives them. *)
Theorem set_sound_rejects w self sound_type sound_file volume loops maxtime
    fade_ms :
  _type_sounds self = TYPE_SOUNDS ->
  let r :=
    set_sound w sound_type sound_file volume loops maxtime fade_ms self in
  (outside_unit volume \/ negative loops \/ negative maxtime \/
   negative fade_ms ->
   is_assertion_error (result r)) /\
  ((forall k, k ∈ TYPE_SOUNDS -> sound_type <> VStr k) ->
   invalid_argument (result r) /\
   (volume_ok volume -> count_ok loops -> millis_ok maxtime ->
    millis_ok fade_ms ->
    (exists s, sound_type = VStr s) ->
    (sound_file = VNone \/ exists file, sound_file = VStr file) ->
    result r = Raise (ValueError "sound type not valid, check the manual"))) /\
  (forall file,
     sound_file = VStr file -> path_isfile w file = false ->
     (exists e, result r = Raise e) /\
     (volume_ok volume -> count_ok loops -> millis_ok maxtime ->
      millis_ok fade_ms ->
      (exists k, k ∈ TYPE_SOUNDS /\ sound_type = VStr k) ->
      not_found (result r) /\
      result r = Raise (IOError ("sound file " +:+ dquote +:+ file +:+ dquote
                                   +:+ " does not exist")))).
Proof.
  intros Htypes. cbv zeta.
  destruct (set_sound_asserts w self sound_type sound_file volume loops
              maxtime fade_ms)
    as [[Hbad [msg Hr]] | [Hok (ty & vol & -> & -> & Hr)]]; rewrite Hr.
  - (* an assertion failed *)
    simpl result. split; [|split].
    + intros _. exists msg. reflexivity.
    + intros _. split; [exists msg; auto|].
      intros Hv Hl Hm Hf Hs Hfile. exfalso. apply Hbad.
      repeat split; auto.
    + intros file -> Hp. split; [eauto|].
      intros Hv Hl Hm Hf (k & _ & ->). exfalso. apply Hbad.
      repeat split; eauto.
  - (* the assertions passed *)
    destruct Hok as (_ & Hfile & Hv & Hl & Hm & Hf).
    split; [|split].
    + intros [H | [H | [H | H]]]; exfalso.
      * exact (outside_unit_not_volume_ok _ H Hv).
      * exact (negative_not_count_ok _ H Hl).
      * exact (negative_not_millis_ok _ H Hm).
      * exact (negative_not_millis_ok _ H Hf).
    + intros Hunknown.
      assert (Hout : ty ∉ _type_sounds self).
      { rewrite Htypes. intros Hin. exact (Hunknown ty Hin eq_refl). }
      rewrite checked_unknown_type by exact Hout. simpl.
      split; [eexists; right; reflexivity | auto].
    + intros file -> Hp.
      destruct (decide (ty ∈ _type_sounds self)) as [Hin | Hout].
      * rewrite (checked_missing_file _ _ _ _ _ _ _ _ _ Hin file) by auto.
        simpl. split; [eauto|]. intros _ _ _ _ _.
        split; [eexists; reflexivity | reflexivity].
      * rewrite checked_unknown_type by exact Hout. simpl. split; [eauto|].
        intros _ _ _ _ (k & Hk & [= ->]). exfalso. apply Hout.
        rewrite Htypes. exact Hk.
Qed.

Lemma set_sound_rejects_witness :
  is_assertion_error
    (result (set_sound (Demo.world None 0) (VStr SOUND_TYPE_EVENT)
               (VStr "event.ogg") (VFloat 1.5) (VInt 0) (VInt 0) (VInt 0)
               (Demo.registry true))) /\
  is_assertion_error
    (result (set_sound (Demo.world None 0) (VStr SOUND_TYPE_EVENT)
               (VStr "event.ogg") (VFloat 0.5) (VInt (-1)) (VInt 0) (VInt 0)
               (Demo.registry true))) /\
  invalid_argument
    (result (set_sound (Demo.world None 0) (VStr "bell")
               (VStr "event.ogg") (VFloat 0.5) (VInt 0) (VInt 0) (VInt 0)
               (Demo.registry true))) /\
  not_found
    (result (set_sound (Demo.no_files (Demo.world None 0))
               (VStr SOUND_TYPE_EVENT)
               (VStr "event.ogg") (VFloat 0.5) (VInt 0) (VInt 0) (VInt 0)
               (Demo.registry true))).
Proof.
  assert (Hin : SOUND_TYPE_EVENT ∈ TYPE_SOUNDS)
    by (unfold TYPE_SOUNDS; set_solver).
  assert (Hv : volume_ok (VFloat 0.5)) by (eexists; repeat split).
  assert (Hl : count_ok (VInt 0)) by (exists 0; split; [reflexivity|lia]).
  split; [|split; [|split]].
  - refine (proj1 (set_sound_rejects (Demo.world None 0) (Demo.registry true)
      (VStr SOUND_TYPE_EVENT) (VStr "event.ogg") (VFloat 1.5) (VInt 0)
      (VInt 0) (VInt 0) eq_refl) (or_introl (or_intror _))).
    eexists. split; [reflexivity|]. right. reflexivity.
  - refine (proj1 (set_sound_rejects (Demo.world None 0) (Demo.registry true)
      (VStr SOUND_TYPE_EVENT) (VStr "event.ogg") (VFloat 0.5) (VInt (-1))
      (VInt 0) (VInt 0) eq_refl) (or_intror (or_introl (or_introl _)))).
    exists (-1). split; [reflexivity | lia].
  - refine (proj1 (proj1 (proj2 (set_sound_rejects (Demo.world None 0)
      (Demo.registry true)
      (VStr "bell") (VStr "event.ogg") (VFloat 0.5) (VInt 0)
      (VInt 0) (VInt 0) eq_refl)) _)).
    intros k Hk [= <-]. revert Hk. unfold TYPE_SOUNDS.
    rewrite !elem_of_cons, elem_of_nil. intros H.
    repeat (destruct H as [H | H]; [discriminate H|]). exact H.
  - exact (proj1 (proj2 (proj2 (proj2 (set_sound_rejects
      (Demo.no_files (Demo.world None 0)) (Demo.registry true)
      (VStr SOUND_TYPE_EVENT) (VStr "event.ogg") (VFloat 0.5) (VInt 0)
      (VInt 0) (VInt 0) eq_refl)) "event.ogg" eq_refl eq_refl)
      Hv Hl (or_introl Hl) (or_introl Hl)
      (ex_intro _ SOUND_TYPE_EVENT (conj Hin eq_refl)))).
Defined.

(** C9. With a volume of class [int] (0 and 1 included) [set_sound] fails
    on its type assertion: the [AssertionError] without message, whatever
    the other arguments, the object and the backend are, the object left
    as it was and nothing issued; so does [load_example_sounds].  The
    floats 0.0 and 1.0 pass. *)
Theorem volume_must_be_a_float w self sound_type sound_file volume loops
    maxtime fade_ms :
  (exists z, int_value volume = Some z) ->
  set_sound w sound_type sound_file volume loops maxtime fade_ms self =
    mkResult (Raise (AssertionError "")) self [] /\
  load_example_sounds w volume self =
    mkResult (Raise (AssertionError "")) self [] /\
  (forall k v,
     k ∈ _type_sounds self -> v = 0%float \/ v = 1%float ->
     result (set_sound w (VStr k) VNone (VFloat v) (VInt 0) (VInt 0) (VInt 0)
               self) = Return false).
Proof.
  intros Hint. split; [|split].
  - apply set_sound_int_volume. exact Hint.
  - destruct Hint as [z Hz]. unfold load_example_sounds.
    rewrite bind_assert.
    destruct volume; try discriminate; reflexivity.
  - intros k v Hk Hv.
    destruct (set_sound_asserts w self (VStr k) VNone (VFloat v) (VInt 0)
                (VInt 0) (VInt 0))
      as [[Hbad _] | [_ (ty & vol & [= <-] & [= <-] & ->)]].
    + exfalso. apply Hbad.
      assert (Hc : count_ok (VInt 0)) by (exists 0; split; [reflexivity|lia]).
      repeat split; eauto; try (left; exact Hc).
      exists v. destruct Hv as [-> | ->]; repeat split.
    + rewrite checked_None by auto. reflexivity.
Qed.

Lemma volume_must_be_a_float_witness :
  set_sound (Demo.world None 0) (VStr SOUND_TYPE_CLICK_MOUSE)
    (VStr "click.ogg") (VInt 1) (VInt 0) (VInt 0) (VInt 0)
    (Demo.registry true) =
  mkResult (Raise (AssertionError "")) (Demo.registry true) [] /\
  load_example_sounds (Demo.world None 0) (VInt 0) (Demo.registry true) =
  mkResult (Raise (AssertionError "")) (Demo.registry true) [].
Proof.
  split.
  - exact (proj1 (volume_must_be_a_float (Demo.world None 0)
      (Demo.registry true) (VStr SOUND_TYPE_CLICK_MOUSE) (VStr "click.ogg")
      (VInt 1) (VInt 0) (VInt 0) (VInt 0) (ex_intro _ 1 eq_refl))).
  - exact (proj1 (proj2 (volume_must_be_a_float (Demo.world None 0)
      (Demo.registry true) (VStr SOUND_TYPE_CLICK_MOUSE) (VStr "click.ogg")
      (VInt 0) (VInt 0) (VInt 0) (VInt 0) (ex_intro _ 0 eq_refl)))).
Defined.

(** C10. Whatever [set_sound] is called with and however it ends, the
    entries of the other sound types, the cached channel, the
    unique-channel flag, the list of sound types and the last played type
    and time are as before; and when it raises, the whole object is as
    before, the entry of the type included. *)
Theorem set_sound_frame w self sound_type sound_file volume loops maxtime
    fade_ms :
  let r :=
    set_sound w sound_type sound_file volume loops maxtime fade_ms self in
  (forall k, sound_type <> VStr k ->
     _sound (self_after r) !! k = _sound self !! k) /\
  _channel (self_after r) = _channel self /\
  _uniquechannel (self_after r) = _uniquechannel self /\
  _type_sounds (self_after r) = _type_sounds self /\
  _last_play (self_after r) = _last_play self /\
  _last_time (self_after r) = _last_time self /\
  (forall e, result r = Raise e -> self_after r = self).
Proof.
  cbv zeta.
  destruct (set_sound_asserts w self sound_type sound_file volume loops
              maxtime fade_ms)
    as [[_ [msg Hr]] | [_ (ty & vol & -> & -> & Hr)]]; rewrite Hr.
  - simpl. repeat split; auto.
  - destruct (set_sound_checked_effect w self ty vol sound_file (VFloat vol)
                loops maxtime fade_ms) as [[e He] | (b & d & evs & He)];
      rewrite He; simpl.
    + repeat split; auto.
    + split; [|repeat split; auto; discriminate].
      intros k Hk. apply lookup_insert_ne. congruence.
Qed.

(* ===================================================================== *)
(** ** get_channel_info *)
(* ===================================================================== *)

Lemma get_channel_info_eq w self found :
  get_channel w self = mkResult (Return found) (set__channel found self) [] ->
  get_channel_info w self =
  mkResult
    (Return
       match found with
       | None => ∅
       | Some channel =>
           <["volume" := channel_get_volume w channel]>
             (<["sound" := channel_get_sound w channel]>
                (<["queue" := channel_get_queue w channel]>
                   (<["endevent" := channel_get_endevent w channel]>
                      (<["busy" := channel_get_busy w channel]> ∅))))
       end)
    (set__channel found self) [].
Proof.
  intros H. unfold get_channel_info, bind. rewrite H.
  destruct found; reflexivity.
Qed.

(** C7. [get_channel_info] acquires the channel as [get_channel] does.
    It returns the empty dictionary exactly when no channel is acquired;
    otherwise it returns the dictionary of the five keys [busy],
    [endevent], [queue], [sound] and [volume], each with what the getter
    of the acquired channel answers. *)
Theorem get_channel_info_mapping w self :
  let r := get_channel_info w self in
  let acquired := get_channel w self in
  self_after r = self_after acquired /\
  (result r = Return ∅ <-> result acquired = Return None) /\
  (forall channel,
     result acquired = Return (Some channel) ->
     exists data : gmap string pyval,
       result r = Return data /\
       dom data =
         ({["busy"]} ∪ {["endevent"]} ∪ {["queue"]} ∪ {["sound"]}
          ∪ {["volume"]} : gset string) /\
       size data = 5%nat /\
       data !! "busy" = Some (channel_get_busy w channel) /\
       data !! "endevent" = Some (channel_get_endevent w channel) /\
       data !! "queue" = Some (channel_get_queue w channel) /\
       data !! "sound" = Some (channel_get_sound w channel) /\
       data !! "volume" = Some (channel_get_volume w channel)).
Proof.
  cbv zeta. destruct (get_channel_frame w self) as [found Hfound].
  rewrite (get_channel_info_eq w self found Hfound), Hfound. simpl.
  split; [reflexivity|]. split.
  - destruct found as [channel|]; split; intros H;
      try reflexivity; try discriminate.
  - intros channel [= ->]. eexists. split; [reflexivity|].
    split; [|split].
    + rewrite !dom_insert_L, dom_empty_L. set_solver.
    + rewrite !map_size_insert_None; [reflexivity|..];
        by simplify_map_eq.
    + repeat split; by simplify_map_eq.
Qed.

(* ===================================================================== *)
(** * Further properties *)
(* ===================================================================== *)

(* ===================================================================== *)
(** ** The constructor *)
(* ===================================================================== *)

Lemma type_sounds_NoDup : NoDup TYPE_SOUNDS.
Proof. apply (bool_decide_unpack (NoDup TYPE_SOUNDS)). vm_compute. exact I. Qed.

Lemma type_sounds_elem k :
  k ∈ TYPE_SOUNDS <->
  k = SOUND_TYPE_CLICK_MOUSE \/ k = SOUND_TYPE_CLOSE_MENU \/
  k = SOUND_TYPE_ERROR \/ k = SOUND_TYPE_EVENT \/
  k = SOUND_TYPE_EVENT_ERROR \/ k = SOUND_TYPE_KEY_ADDITION \/
  k = SOUND_TYPE_KEY_DELETION \/ k = SOUND_TYPE_OPEN_MENU \/
  k = SOUND_TYPE_WIDGET_SELECTION.
Proof.
  unfold TYPE_SOUNDS. rewrite !elem_of_cons, elem_of_nil. tauto.
Qed.

Lemma isinstance_bool v : isinstance v [Tbool] = true <-> exists b, v = VBool b.
Proof.
  destruct v; simpl; split; try discriminate; eauto;
    intros [? ?]; discriminate.
Qed.

Lemma positive_int_spec v :
  isinstance v [Tint] && gt_zero v = true <-> positive_int v.
Proof.
  unfold positive_int. destruct v; simpl; split; intros H; try discriminate;
    try (destruct H as (? & ? & ?); discriminate).
  - exists (Z.b2z b). split; [reflexivity | destruct b; simpl in *; lia].
  - destruct H as (? & [= <-] & ?). destruct b; simpl in *; [reflexivity | lia].
  - exists z. split; [reflexivity | lia].
  - destruct H as (? & [= <-] & ?). lia.
Qed.

(** X1. [Sound.__init__] returns an object exactly for arguments of the
    asserted classes with [frequency], [channels] and [buffer] above zero
    ([size] may be any integer, and a [bool] counts as an integer);
    otherwise it raises an [AssertionError], leaves the global flag as it
    was and calls nothing. *)
Theorem init_accepts w g uc fr sz ch bf dn ac fi :
  (init_args_ok uc fr sz ch bf dn ac fi <->
   exists self, (__init__ w g uc fr sz ch bf dn ac fi).1.1 = Return self) /\
  (~ init_args_ok uc fr sz ch bf dn ac fi ->
   is_assertion_error (__init__ w g uc fr sz ch bf dn ac fi).1.1 /\
   (__init__ w g uc fr sz ch bf dn ac fi).1.2 = g /\
   (__init__ w g uc fr sz ch bf dn ac fi).2 = []).
Proof.
  assert (Hcases :
    (init_args_ok uc fr sz ch bf dn ac fi /\
     exists self, (__init__ w g uc fr sz ch bf dn ac fi).1.1 = Return self) \/
    (~ init_args_ok uc fr sz ch bf dn ac fi /\
     exists msg, __init__ w g uc fr sz ch bf dn ac fi =
                 (Raise (AssertionError msg), g, []))).
  { unfold __init__, init_args_ok. cbv zeta.
    destruct (isinstance uc [Tbool]) eqn:E1; cbn [negb].
    2: { right. split; [|eauto]. intros (H & _).
         apply isinstance_bool in H. congruence. }
    destruct (isinstance fr [Tint]) eqn:E2; cbn [negb].
    2: { right. split; [|eauto]. intros (_ & H & _).
         apply positive_int_spec in H. rewrite E2 in H. discriminate. }
    destruct (isinstance sz [Tint]) eqn:E3; cbn [negb].
    2: { right. split; [|eauto]. intros (_ & _ & H & _).
         apply isinstance_int in H. congruence. }
    destruct (isinstance ch [Tint]) eqn:E4; cbn [negb].
    2: { right. split; [|eauto]. intros (_ & _ & _ & H & _).
         apply positive_int_spec in H. rewrite E4 in H. discriminate. }
    destruct (isinstance bf [Tint]) eqn:E5; cbn [negb].
    2: { right. split; [|eauto]. intros (_ & _ & _ & _ & H & _).
         apply positive_int_spec in H. rewrite E5 in H. discriminate. }
    destruct (isinstance dn [Tstr]) eqn:E6; cbn [negb].
    2: { right. split; [|eauto]. intros (_ & _ & _ & _ & _ & H & _).
         apply isinstance_str in H. congruence. }
    destruct (isinstance ac [Tint]) eqn:E7; cbn [negb].
    2: { right. split; [|eauto]. intros (_ & _ & _ & _ & _ & _ & H & _).
         apply isinstance_int in H. congruence. }
    destruct (isinstance fi [Tbool]) eqn:E8; cbn [negb].
    2: { right. split; [|eauto]. intros (_ & _ & _ & _ & _ & _ & _ & H).
         apply isinstance_bool in H. congruence. }
    destruct (gt_zero fr) eqn:E9; cbn [negb].
    2: { right. split; [|eauto]. intros (_ & H & _).
         apply positive_int_spec in H. rewrite E2, E9 in H. discriminate. }
    destruct (gt_zero ch) eqn:E10; cbn [negb].
    2: { right. split; [|eauto]. intros (_ & _ & _ & H & _).
         apply positive_int_spec in H. rewrite E4, E10 in H. discriminate. }
    destruct (gt_zero bf) eqn:E11; cbn [negb].
    2: { right. split; [|eauto]. intros (_ & _ & _ & _ & H & _).
         apply positive_int_spec in H. rewrite E5, E11 in H. discriminate. }
    left. split; [|simpl; eauto].
    split; [apply isinstance_bool, E1|].
    split; [apply positive_int_spec; rewrite E2, E9; reflexivity|].
    split; [apply isinstance_int, E3|].
    split; [apply positive_int_spec; rewrite E4, E10; reflexivity|].
    split; [apply positive_int_spec; rewrite E5, E11; reflexivity|].
    split; [apply isinstance_str, E6|].
    split; [apply isinstance_int, E7 | apply isinstance_bool, E8]. }
  destruct Hcases as [[Hok Hret] | [Hbad [msg Hr]]].
  - split; [tauto|]. intros H. contradiction.
  - split.
    + split; [tauto|]. rewrite Hr. simpl. intros [self H]. discriminate.
    + intros _. rewrite Hr. simpl. repeat split. eexists. reflexivity.
Qed.

(** What a construction that returns does to the flag and to the mixer. *)
Lemma init_effects w g uc fr sz ch bf dn ac fi self g' evs :
  __init__ w g uc fr sz ch bf dn ac fi = (Return self, g', evs) ->
  let init := (mixer_get_init_is_None w && negb g) || truth fi in
  g' = (if init then true else g) /\
  evs = (if init then init_mixer w fr sz ch bf dn ac else []).
Proof.
  unfold __init__. cbv zeta.
  repeat match goal with
         | |- context [if negb ?b then _ else _] => destruct b; cbn [negb]
         end; try discriminate.
  intros [= _ <- <-]. split; reflexivity.
Qed.

Lemma init_mixer_calls_once w fr sz ch bf dn ac :
  (length (filter (fun e => is_mixer_init e = true)
             (init_mixer w fr sz ch bf dn ac)) <= 1)%nat.
Proof.
  unfold init_mixer. destruct (pygame_version w) as [[major ?] minor].
  destruct ((major =? 1) && (minor <=? 4)); [|destruct ((major =? 1) && (4 <? minor));
    [|destruct (1 <? major)]];
    destruct (mixer_init_raises w); simpl; lia.
Qed.

(** X2. The global flag guards [mixer.init]: a construction never resets
    the flag, sets it whenever it calls [mixer.init] (or prints), and calls
    [mixer.init] at most once; and once the flag is set, a construction
    without [force_init] calls nothing, whatever [mixer.get_init()] then
    answers. *)
Theorem init_flag_guards_mixer
    w1 w2 g uc1 fr1 sz1 ch1 bf1 dn1 ac1 fi1 uc2 fr2 sz2 ch2 bf2 dn2 ac2
    self1 g1 evs1 self2 g2 evs2 :
  __init__ w1 g uc1 fr1 sz1 ch1 bf1 dn1 ac1 fi1 = (Return self1, g1, evs1) ->
  __init__ w2 g1 uc2 fr2 sz2 ch2 bf2 dn2 ac2 (VBool false)
    = (Return self2, g2, evs2) ->
  (g = true -> g1 = true) /\
  (evs1 <> [] -> g1 = true) /\
  (length (filter (fun e => is_mixer_init e = true) evs1) <= 1)%nat /\
  (g1 = true -> evs2 = [] /\ g2 = true).
Proof.
  intros H1 H2.
  apply init_effects in H1 as [Hg1 He1]. apply init_effects in H2 as [Hg2 He2].
  cbv zeta in *. simpl truth in *. rewrite orb_false_r in *.
  split; [|split; [|split]].
  - intros ->. rewrite Hg1. destruct (_ || _); reflexivity.
  - rewrite Hg1, He1. destruct (_ || _); [reflexivity | congruence].
  - rewrite He1. destruct (_ || _); [apply init_mixer_calls_once | simpl; lia].
  - intros ->. rewrite andb_false_r in *. auto.
Qed.

Lemma init_flag_guards_mixer_witness :
  (Demo.new_sound true).1.2 = true /\
  (Demo.new_sound true).2 =
    [MixerInit (VInt 22050) (VInt (-16)) (VInt 2) (VInt 4096)
       (Some (VStr "")) (Some (VInt 0))] /\
  (__init__ (Demo.world None 0) true (VBool true) (VInt 22050) (VInt (-16))
     (VInt 2) (VInt 4096) (VStr "") (VInt 0) (VBool false)).2 = [].
Proof.
  split; [reflexivity|]. split; [reflexivity|].
  exact (proj1 (proj2 (proj2 (proj2
    (init_flag_guards_mixer (Demo.world None 0) (Demo.world None 0) false
       (VBool true) (VInt 22050) (VInt (-16)) (VInt 2) (VInt 4096) (VStr "")
       (VInt 0) (VBool false)
       (VBool true) (VInt 22050) (VInt (-16)) (VInt 2) (VInt 4096) (VStr "")
       (VInt 0)
       (Demo.registry true) true (Demo.new_sound true).2
       (Demo.registry true) true [] eq_refl eq_refl))) eq_refl)).
Defined.

(** X3. The object [Sound.__init__] returns, or the assertion it fails
    on, depends on the arguments only: not on the global flag, on whether
    the mixer is initialised, on the version of pygame or on [mixer.init]
    raising.  When [mixer.init] is called and raises, the error is printed
    after the call and the object is returned all the same. *)
Theorem init_ignores_mixer_failure w w' g g' uc fr sz ch bf dn ac fi :
  (__init__ w g uc fr sz ch bf dn ac fi).1.1 =
  (__init__ w' g' uc fr sz ch bf dn ac fi).1.1 /\
  (forall self g1 evs e,
     __init__ w g uc fr sz ch bf dn ac fi = (Return self, g1, evs) ->
     mixer_init_raises w = Some e -> evs <> [] ->
     exists call,
       is_mixer_init call = true /\
       evs = [call; Printed ("sound error: " +:+ e)]).
Proof.
  split.
  - unfold __init__. cbv zeta.
    repeat match goal with
           | |- context [if negb ?b then _ else _] => destruct b; cbn [negb]
           end; reflexivity.
  - intros self g1 evs e H He Hne. apply init_effects in H as [_ Hevs].
    cbv zeta in Hevs. subst evs.
    destruct (_ || _); [|congruence].
    revert Hne. unfold init_mixer. rewrite He.
    destruct (pygame_version w) as [[major ?] minor].
    destruct ((major =? 1) && (minor <=? 4));
      [|destruct ((major =? 1) && (4 <? minor)); [|destruct (1 <? major)]];
      simpl; intros Hne; try congruence; eexists; (split; [|reflexivity]); reflexivity.
Qed.

(* ===================================================================== *)
(** ** The shape of a registry *)
(* ===================================================================== *)

Lemma registry_ok_set__channel c self :
  registry_ok self -> registry_ok (set__channel c self).
Proof. intros H. exact H. Qed.

Lemma registry_ok_set__last p t self :
  registry_ok self -> registry_ok (set__last p t self).
Proof. intros H. exact H. Qed.

Lemma registry_ok_set__sound k d self :
  registry_ok self -> k ∈ TYPE_SOUNDS ->
  (forall c, d = ClipDict c -> clip_ok k c) ->
  registry_ok (set__sound k d self).
Proof.
  intros (Ht & Hdom & Hclip) Hk Hd. split; [exact Ht|]. split.
  - intros k'. simpl. destruct (decide (k = k')) as [<- | Hne].
    + rewrite lookup_insert_eq. split; [auto | eauto].
    + rewrite lookup_insert_ne by exact Hne. apply Hdom.
  - intros k' c. simpl. destruct (decide (k = k')) as [<- | Hne].
    + rewrite lookup_insert_eq. intros [= ->]. auto.
    + rewrite lookup_insert_ne by exact Hne. apply Hclip.
Qed.

(** The object [Sound.__init__] returns has the shape of a registry. *)
Lemma init_registry_ok w g uc fr sz ch bf dn ac fi self g' evs :
  __init__ w g uc fr sz ch bf dn ac fi = (Return self, g', evs) ->
  registry_ok self.
Proof.
  intros H. pose proof H as Hinit.
  apply init_returns in H as (Hc & Hu & Ht & Hp & Hl & Hs).
  assert (Hdom : forall k, is_Some (_sound self !! k) -> k ∈ TYPE_SOUNDS).
  { revert Hinit. unfold __init__. cbv zeta.
    repeat match goal with
           | |- context [if negb ?b then _ else _] => destruct b; cbn [negb]
           end; try discriminate.
    intros [= <- _ _] k. simpl.
    rewrite type_sounds_elem. intros [d Hd]. revert Hd.
    repeat (rewrite lookup_insert;
            destruct (decide (_ = k)) as [<- | _]; [intros _; tauto|]).
    rewrite lookup_empty. discriminate. }
  split; [exact Ht|]. split.
  - intros k. split; [apply Hdom|]. intros Hk. rewrite (Hs k Hk). eauto.
  - intros k c Hkc.
    assert (Hk : k ∈ TYPE_SOUNDS) by (apply Hdom; eauto).
    rewrite (Hs k Hk) in Hkc. discriminate.
Qed.

(** X4. The object [Sound.__init__] returns has the nine sound types, an
    empty entry for each of them and no other entry, no cached channel and
    nothing played; so every play method on it returns without acquiring
    a channel, changing the object or calling the mixer. *)
Theorem init_registry w g uc fr sz ch bf dn ac fi self g' evs :
  __init__ w g uc fr sz ch bf dn ac fi = (Return self, g', evs) ->
  registry_ok self /\
  _channel self = None /\ _last_play self = "" /\ _last_time self = 0%float /\
  (forall k, k ∈ TYPE_SOUNDS -> _sound self !! k = Some EmptyDict) /\
  (forall w' k, k ∈ TYPE_SOUNDS -> play w' k self = mkResult (Return tt) self []).
Proof.
  intros H. pose proof (init_registry_ok _ _ _ _ _ _ _ _ _ _ _ _ _ H) as Hok.
  apply init_returns in H as (Hc & Hu & Ht & Hp & Hl & Hs).
  split; [|split; [|split; [|split; [|split]]]]; auto.
  intros w' k Hk. unfold play, bind.
  rewrite (sound_entry_bound k self _ (Hs k Hk)). reflexivity.
Qed.

Lemma init_registry_witness :
  registry_ok (Demo.registry false) /\
  play_error (Demo.world (Some 2%nat) 5) (Demo.registry false) =
    mkResult (Return tt) (Demo.registry false) [].
Proof.
  pose proof (init_registry (Demo.world None 0) false (VBool false)
    (VInt 22050) (VInt (-16)) (VInt 2) (VInt 4096) (VStr "") (VInt 0)
    (VBool false) (Demo.registry false) true (Demo.new_sound false).2
    eq_refl) as H.
  split; [exact (proj1 H)|].
  refine (proj2 (proj2 (proj2 (proj2 (proj2 H))))
            (Demo.world (Some 2%nat) 5) SOUND_TYPE_ERROR _).
  apply type_sounds_elem. tauto.
Defined.

(** The ways [set_sound] ends: with an exception and the object as it
    was, or by storing an entry for a type of the registry. *)
Lemma set_sound_cases w self sound_type sound_file volume loops maxtime
    fade_ms :
  (exists e,
     set_sound w sound_type sound_file volume loops maxtime fade_ms self =
     mkResult (Raise e) self []) \/
  (exists k vol,
     sound_type = VStr k /\ volume = VFloat vol /\ k ∈ _type_sounds self /\
     checked_args sound_type sound_file volume loops maxtime fade_ms /\
     ((sound_file = VNone /\
       set_sound w sound_type sound_file volume loops maxtime fade_ms self =
       mkResult (Return false) (set__sound k EmptyDict self) []) \/
      (exists file,
         sound_file = VStr file /\ path_isfile w file = true /\
         set_sound w sound_type sound_file volume loops maxtime fade_ms self =
         mkResult (Return (loaded_status w file))
           (set__sound k
              (loaded_entry w k file vol volume loops maxtime fade_ms) self)
           (loaded_warning w file)))).
Proof.
  destruct (set_sound_asserts w self sound_type sound_file volume loops
              maxtime fade_ms)
    as [[_ [msg Hr]] | [Hok (k & vol & -> & -> & Hr)]].
  { left. eauto. }
  rewrite Hr.
  destruct (decide (k ∈ _type_sounds self)) as [Hin | Hout].
  2: { left. eexists. apply checked_unknown_type. exact Hout. }
  pose proof Hok as (_ & [-> | [file ->]] & _).
  - right. exists k, vol.
    split; [reflexivity|]. split; [reflexivity|]. split; [exact Hin|].
    split; [exact Hok|]. left. split; [reflexivity|]. apply checked_None; auto.
  - destruct (path_isfile w file) eqn:Hp.
    2: { left. eexists. eapply checked_missing_file; eauto. }
    right. exists k, vol.
    split; [reflexivity|]. split; [reflexivity|]. split; [exact Hin|].
    split; [exact Hok|]. right. exists file.
    split; [reflexivity|]. split; [exact Hp|].
    unfold loaded_status, loaded_entry, loaded_warning.
    destruct (mixer_Sound w file) as [sd|] eqn:Hsd.
    + eapply checked_loaded; eauto.
    + eapply checked_bad_format; eauto.
Qed.

Lemma loaded_entry_ok w k file vol loops maxtime fade_ms c :
  volume_ok (VFloat vol) -> count_ok loops -> millis_ok maxtime ->
  millis_ok fade_ms ->
  loaded_entry w k file vol (VFloat vol) loops maxtime fade_ms = ClipDict c ->
  clip_ok k c.
Proof.
  intros Hv Hl Hm Hf. unfold loaded_entry.
  destruct (mixer_Sound w file); [|discriminate].
  intros [= <-]. repeat split; auto.
Qed.

(* ===================================================================== *)
(** ** What the methods keep *)
(* ===================================================================== *)

Section Preserves.
Context {P : Sound -> Prop}.

Lemma preserves_ret {A} (a : A) : preserves P (ret a).
Proof. intros self H. exact H. Qed.

Lemma preserves_raise {A} e : preserves P (@raise A e).
Proof. intros self H. exact H. Qed.

Lemma preserves_get_self : preserves P get_self.
Proof. intros self H. exact H. Qed.

Lemma preserves_emit e : preserves P (emit e).
Proof. intros self H. exact H. Qed.

Lemma preserves_assert b msg : preserves P (assert_ b msg).
Proof. intros self H. destruct b; exact H. Qed.

Lemma preserves_modify f :
  (forall self, P self -> P (f self)) -> preserves P (modify f).
Proof. intros Hf self H. apply Hf, H. Qed.

Lemma preserves_bind {A B} (m : M A) (k : A -> M B) :
  preserves P m -> (forall a, preserves P (k a)) -> preserves P (bind m k).
Proof.
  intros Hm Hk self H. unfold bind.
  destruct (result (m self)) as [a|e] eqn:E; simpl.
  - apply Hk, Hm, H.
  - apply Hm, H.
Qed.

Lemma preserves_except m :
  preserves P m -> preserves P (except_pygame_error_pass m).
Proof.
  intros Hm self H. unfold except_pygame_error_pass.
  destruct (result (m self)) as [a|[]]; simpl; apply Hm, H.
Qed.

Lemma preserves_channel_call e raises : preserves P (channel_call e raises).
Proof.
  apply preserves_bind; [apply preserves_emit|].
  intros _. destruct raises; [apply preserves_raise | apply preserves_ret].
Qed.

Lemma preserves_for_range idx body :
  (forall i, preserves P (body i)) -> preserves P (for_range idx body).
Proof.
  intros Hb. induction idx as [|i idx IH]; simpl.
  - apply preserves_ret.
  - apply preserves_bind; [apply Hb | intros _; exact IH].
Qed.

Lemma preserves_index {A} (l : list A) i : preserves P (index l i).
Proof.
  unfold index. destruct (l !! i); [apply preserves_ret | apply preserves_raise].
Qed.
End Preserves.

Lemma get_channel_keeps_registry w : preserves registry_ok (get_channel w).
Proof.
  intros self H. destruct (get_channel_frame w self) as [c ->]. exact H.
Qed.

Lemma set_sound_keeps_registry w sound_type sound_file volume loops maxtime
    fade_ms :
  preserves registry_ok
    (set_sound w sound_type sound_file volume loops maxtime fade_ms).
Proof.
  intros self H.
  destruct (set_sound_cases w self sound_type sound_file volume loops maxtime
              fade_ms)
    as [[e ->] | (k & vol & -> & -> & Hk & Hok & Hcase)]; [exact H|].
  assert (Hk' : k ∈ TYPE_SOUNDS) by (destruct H as [<- _]; exact Hk).
  destruct Hok as (_ & _ & Hv & Hl & Hm & Hf).
  destruct Hcase as [[-> ->] | (file & -> & Hp & ->)]; simpl.
  - apply registry_ok_set__sound; auto. discriminate.
  - apply registry_ok_set__sound; auto.
    intros c. apply loaded_entry_ok; auto.
Qed.

Lemma _play_sound_keeps_registry w sound :
  preserves registry_ok (_play_sound w sound).
Proof.
  intros self H. destruct sound as [[|c]|]; try exact H.
  destruct (get_channel_frame w self) as [[ch|] Hc].
  - rewrite (_play_sound_clip w self c ch _ Hc). exact H.
  - rewrite (_play_sound_busy w self c _ Hc). exact H.
Qed.

(** X5. Every method keeps the shape of the registry, whatever its
    arguments and the backend are and however it ends: the nine sound
    types, an entry for each of them and for nothing else, and in every
    stored clip the type it is stored under, the length and volume of its
    sound object, a volume in [0,1] and non-negative [loops], [maxtime]
    and [fade_ms]. *)
Theorem methods_keep_registry w :
  preserves registry_ok (get_channel w) /\
  (forall sound_type sound_file volume loops maxtime fade_ms,
     preserves registry_ok
       (set_sound w sound_type sound_file volume loops maxtime fade_ms)) /\
  (forall volume, preserves registry_ok (load_example_sounds w volume)) /\
  (forall sound, preserves registry_ok (_play_sound w sound)) /\
  (forall key, preserves registry_ok (play w key)) /\
  preserves registry_ok (stop w) /\
  preserves registry_ok (pause w) /\
  preserves registry_ok (unpause w) /\
  preserves registry_ok (get_channel_info w).
Proof.
  assert (Htransport : forall call raises,
            preserves registry_ok (transport w call raises)).
  { intros call raises. apply preserves_bind; [apply get_channel_keeps_registry|].
    intros [ch|]; [|apply preserves_ret].
    apply preserves_except, preserves_channel_call. }
  split; [apply get_channel_keeps_registry|].
  split; [apply set_sound_keeps_registry|].
  split.
  { intros volume. apply preserves_bind; [apply preserves_assert|].
    intros _. apply preserves_bind; [apply preserves_get_self|].
    intros self0. apply preserves_for_range. intros i.
    apply preserves_bind; [apply preserves_get_self|]. intros self1.
    apply preserves_bind; [apply preserves_index|]. intros type.
    apply preserves_bind; [apply preserves_index|]. intros example.
    apply preserves_bind; [apply set_sound_keeps_registry|].
    intros _. apply preserves_ret. }
  split; [apply _play_sound_keeps_registry|].
  split.
  { intros key. apply preserves_bind.
    - apply preserves_bind; [apply preserves_get_self|].
      intros self0. destruct (_sound self0 !! key);
        [apply preserves_ret | apply preserves_raise].
    - intros d. apply preserves_bind; [apply _play_sound_keeps_registry|].
      intros _. apply preserves_ret. }
  split; [apply Htransport|]. split; [apply Htransport|].
  split; [apply Htransport|].
  apply preserves_bind; [apply get_channel_keeps_registry|].
  intros [ch|]; apply preserves_ret.
Qed.

(* ===================================================================== *)
(** ** The play methods and the transport methods *)
(* ===================================================================== *)









(* ===================================================================== *)
(** ** Binding and playing *)
(* ===================================================================== *)




(** X10. Unbind, then play: after [set_sound] has returned [False] for a
    sound type ([None] as file, or a file that does not decode), the play
    of that type does nothing: no channel is acquired, nothing is called
    and the object stays as it is. *)
Theorem unbound_play_is_silent w w2 self sound_type sound_file volume loops
    maxtime fade_ms :
  result (set_sound w sound_type sound_file volume loops maxtime fade_ms self)
    = Return false ->
  exists k,
    sound_type = VStr k /\
    _sound (self_after (set_sound w sound_type sound_file volume loops maxtime
                          fade_ms self)) !! k = Some EmptyDict /\
    play w2 k
      (self_after (set_sound w sound_type sound_file volume loops maxtime
                     fade_ms self)) =
    mkResult (Return tt)
      (self_after (set_sound w sound_type sound_file volume loops maxtime
                     fade_ms self)) [].
Proof.
  intros Hret.
  destruct (set_sound_cases w self sound_type sound_file volume loops maxtime
              fade_ms)
    as [[e Hr] | (k & vol & -> & -> & Hk & Hok & Hcase)].
  { rewrite Hr in Hret. discriminate. }
  exists k. split; [reflexivity|].
  assert (Hentry :
    _sound (self_after (set_sound w (VStr k) sound_file (VFloat vol) loops
                          maxtime fade_ms self)) !! k = Some EmptyDict).
  { destruct Hcase as [[-> Hr] | (file & -> & Hp & Hr)]; rewrite Hr in *;
      cbn [result self_after] in *; simpl; rewrite lookup_insert_eq.
    - reflexivity.
    - injection Hret as Hst. unfold loaded_status, loaded_entry in *.
      destruct (mixer_Sound w file); [discriminate | reflexivity]. }
  split; [exact Hentry|].
  unfold play, bind. rewrite (sound_entry_bound _ _ _ Hentry). reflexivity.
Qed.

Lemma unbound_play_is_silent_witness :
  events (play_click_mouse (Demo.world (Some 1%nat) 9)
            (self_after
               (set_sound (Demo.world None 0) (VStr SOUND_TYPE_CLICK_MOUSE)
                  VNone (VFloat 0.5) (VInt 0) (VInt 0) (VInt 0)
                  (Demo.bound true SOUND_TYPE_CLICK_MOUSE)))) = [].
Proof.
  destruct (unbound_play_is_silent (Demo.world None 0)
              (Demo.world (Some 1%nat) 9)
              (Demo.bound true SOUND_TYPE_CLICK_MOUSE)
              (VStr SOUND_TYPE_CLICK_MOUSE) VNone (VFloat 0.5) (VInt 0)
              (VInt 0) (VInt 0) eq_refl) as (k & Hk & _ & Hplay).
  injection Hk as <-. unfold play_click_mouse. rewrite Hplay. reflexivity.
Defined.

(** The outcome of [set_sound] depends on the list of sound types of the
    object only, and so does what it stores. *)
Lemma set_sound_any_store w sound_type sound_file volume loops maxtime fade_ms
    self self' :
  _type_sounds self' = _type_sounds self ->
  let r := set_sound w sound_type sound_file volume loops maxtime fade_ms self in
  let r' := set_sound w sound_type sound_file volume loops maxtime fade_ms self' in
  result r' = result r /\ events r' = events r /\
  ((exists e, result r = Raise e /\ self_after r = self /\ self_after r' = self') \/
   (exists b k d,
      result r = Return b /\ sound_type = VStr k /\
      self_after r = set__sound k d self /\
      self_after r' = set__sound k d self')).
Proof.
  intros Ht. cbv zeta. unfold set_sound. rewrite !bind_assert.
  repeat match goal with
         | |- context [if ?b then _ else mkResult (Raise (AssertionError _)) _ _] =>
             destruct b; [|simpl; split; [reflexivity|]; split; [reflexivity|];
                           left; eauto]
         end.
  destruct sound_type as [| | | |k| | |];
    try (simpl; split; [reflexivity|]; split; [reflexivity|]; left; eauto; fail).
  destruct volume as [| | |vol| | | |];
    try (simpl; split; [reflexivity|]; split; [reflexivity|]; left; eauto; fail).
  unfold set_sound_checked. run. rewrite Ht.
  destruct (bool_decide (k ∈ _type_sounds self)); cbn [negb].
  2: { simpl. split; [reflexivity|]. split; [reflexivity|]. left. eauto. }
  destruct sound_file as [| | | |file| | |];
    try (simpl; split; [reflexivity|]; split; [reflexivity|]; left; eauto; fail).
  - run. simpl. split; [reflexivity|]. split; [reflexivity|]. right. eauto 10.
  - destruct (path_isfile w file); cbn [negb].
    2: { simpl. split; [reflexivity|]. split; [reflexivity|]. left. eauto. }
    destruct (mixer_Sound w file); run; simpl;
      (split; [reflexivity|]; split; [reflexivity|]; right; eauto 10).
Qed.

(** X11. Binding replaces: when [set_sound] is called twice for the same
    sound type, the second call ends as it would have without the first
    (same result, same warnings), and when it returns, the object is the
    one the second call alone would have left: nothing of the first
    binding remains. *)
Theorem rebinding_replaces w1 w2 self k
    file1 volume1 loops1 maxtime1 fade_ms1
    file2 volume2 loops2 maxtime2 fade_ms2 :
  let first :=
    set_sound w1 (VStr k) file1 volume1 loops1 maxtime1 fade_ms1 self in
  let both :=
    set_sound w2 (VStr k) file2 volume2 loops2 maxtime2 fade_ms2
      (self_after first) in
  let second :=
    set_sound w2 (VStr k) file2 volume2 loops2 maxtime2 fade_ms2 self in
  result both = result second /\
  events both = events second /\
  (forall b, result second = Return b -> self_after both = self_after second).
Proof.
  cbv zeta.
  set (first := set_sound w1 (VStr k) file1 volume1 loops1 maxtime1 fade_ms1 self).
  assert (Hfirst : self_after first = self \/
                   exists d, self_after first = set__sound k d self).
  { unfold first.
    destruct (set_sound_cases w1 self (VStr k) file1 volume1 loops1 maxtime1
                fade_ms1)
      as [[e ->] | (k' & vol & [= <-] & -> & _ & _ & Hcase)]; [auto|].
    destruct Hcase as [[-> ->] | (file & -> & _ & ->)]; simpl; eauto. }
  assert (Ht : _type_sounds (self_after first) = _type_sounds self).
  { destruct Hfirst as [-> | [d ->]]; reflexivity. }
  destruct (set_sound_any_store w2 (VStr k) file2 volume2 loops2 maxtime2
              fade_ms2 self (self_after first) Ht)
    as (Hres & Hev & Hstate).
  split; [exact Hres|]. split; [exact Hev|].
  intros b Hb. destruct Hstate as [(e & He & _) | (b' & k' & d & _ & [= <-] & -> & ->)].
  { rewrite He in Hb. discriminate. }
  destruct Hfirst as [-> | [d1 ->]]; [reflexivity|].
  unfold set__sound. simpl. rewrite insert_insert_eq. reflexivity.
Qed.

(* ===================================================================== *)
(** ** The overlap gate over many plays *)
(* ===================================================================== *)

(** Plays of the sound played last, each sooner than 20% of its length
    after the one before: none is let through. *)
Lemma play_all_silent key c ws : forall self,
  _uniquechannel self = false ->
  _sound self !! key = Some (ClipDict c) ->
  _last_play self = clip_type c ->
  within_window (clip_length c) (_last_time self) ws ->
  events (play_all ws key self) = [] /\
  result (play_all ws key self) = Return tt /\
  _last_play (self_after (play_all ws key self)) = clip_type c /\
  last (_last_time self :: map time_time ws) =
    Some (_last_time (self_after (play_all ws key self))) /\
  _sound (self_after (play_all ws key self)) = _sound self.
Proof.
  induction ws as [|w ws IH]; intros self Hu Hk Hl Hw.
  { simpl. auto. }
  destruct Hw as (Hch & Hgate & Hw).
  destruct (mixer_find_channel w) as [ch|] eqn:Hfind; [|congruence].
  pose proof (play_shared w key self c ch Hu Hk Hfind) as Hplay.
  rewrite (overlap_gate_same self c _ Hl Hu), Hgate in Hplay.
  cbn [play_all]. unfold bind. rewrite Hplay. cbn [result self_after events].
  set (self1 := set__last (clip_type c) (time_time w)
                  (set__channel (Some ch) self)) in *.
  destruct (IH self1 Hu Hk eq_refl Hw) as (He & Hr & Hp & Ht & Hs).
  rewrite He, Hr, Hp, Hs, <- Ht. repeat split.
Qed.

(** X12. The overlap gate restarts its window at every call: in
    shared-channel mode, after a first play of a bound sound, any number of
    further plays of it that each find a channel and each come sooner than
    20% of the length of the clip after the call before issue no play call
    at all, however long the row lasts; the last time stored is that of the
    last call. *)
Theorem repeated_plays_stay_silent key self c w0 ch0 ws :
  _uniquechannel self = false ->
  _sound self !! key = Some (ClipDict c) ->
  _last_play self <> clip_type c ->
  mixer_find_channel w0 = Some ch0 ->
  within_window (clip_length c) (time_time w0) ws ->
  let r := play_all (w0 :: ws) key self in
  result r = Return tt /\
  events r = [play_of ch0 c] /\
  last (time_time w0 :: map time_time ws) = Some (_last_time (self_after r)).
Proof.
  intros Hu Hk Hl Hfind Hw. cbv zeta.
  pose proof (play_shared w0 key self c ch0 Hu Hk Hfind) as Hplay.
  rewrite (overlap_gate_other self c _ Hl) in Hplay.
  cbn [play_all]. unfold bind. rewrite Hplay. cbn [result self_after events].
  set (self1 := set__last (clip_type c) (time_time w0)
                  (set__channel (Some ch0) self)) in *.
  destruct (play_all_silent key c ws self1 Hu Hk eq_refl Hw)
    as (He & Hr & _ & Ht & _).
  rewrite He, Hr, <- Ht. repeat split.
Qed.

Lemma repeated_plays_stay_silent_witness :
  events (play_all
            [Demo.world (Some 0%nat) 0; Demo.world (Some 1%nat) 0.15;
             Demo.world (Some 2%nat) 0.3; Demo.world (Some 3%nat) 0.45;
             Demo.world (Some 4%nat) 0.6]
            SOUND_TYPE_KEY_ADDITION
            (Demo.bound false SOUND_TYPE_KEY_ADDITION)) =
  [play_of 0%nat (Demo.clip SOUND_TYPE_KEY_ADDITION)].
Proof.
  refine (proj1 (proj2
    (repeated_plays_stay_silent SOUND_TYPE_KEY_ADDITION
       (Demo.bound false SOUND_TYPE_KEY_ADDITION)
       (Demo.clip SOUND_TYPE_KEY_ADDITION)
       (Demo.world (Some 0%nat) 0) 0%nat
       [Demo.world (Some 1%nat) 0.15; Demo.world (Some 2%nat) 0.3;
        Demo.world (Some 3%nat) 0.45; Demo.world (Some 4%nat) 0.6]
       eq_refl _ _ eq_refl _))).
  - vm_compute. reflexivity.
  - vm_compute. discriminate.
  - simpl. repeat split; try discriminate; vm_compute; reflexivity.
Defined.

(** X13. A sound of another type than the last one played is never held
    back: in shared-channel mode, plays that alternate between two bound
    sounds of different types all issue their play call, whatever the
    times of the calls are. *)
Theorem alternating_sounds_all_play keyA keyB self cA cB w1 w2 w3 ch1 ch2 ch3 :
  _uniquechannel self = false ->
  _sound self !! keyA = Some (ClipDict cA) ->
  _sound self !! keyB = Some (ClipDict cB) ->
  clip_type cA <> clip_type cB ->
  _last_play self <> clip_type cA ->
  mixer_find_channel w1 = Some ch1 ->
  mixer_find_channel w2 = Some ch2 ->
  mixer_find_channel w3 = Some ch3 ->
  events ((play w1 keyA ;; play w2 keyB ;; play w3 keyA) self) =
    [play_of ch1 cA; play_of ch2 cB; play_of ch3 cA].
Proof.
  intros Hu HA HB Hne Hl H1 H2 H3.
  pose proof (play_shared w1 keyA self cA ch1 Hu HA H1) as P1.
  rewrite (overlap_gate_other self cA _ Hl) in P1.
  set (self1 := set__last (clip_type cA) (time_time w1)
                  (set__channel (Some ch1) self)) in *.
  pose proof (play_shared w2 keyB self1 cB ch2 Hu HB H2) as P2.
  rewrite (overlap_gate_other self1 cB _ Hne) in P2.
  set (self2 := set__last (clip_type cB) (time_time w2)
                  (set__channel (Some ch2) self1)) in *.
  pose proof (play_shared w3 keyA self2 cA ch3 Hu HA H3) as P3.
  rewrite (overlap_gate_other self2 cA _ (not_eq_sym Hne)) in P3.
  unfold bind. rewrite P1. cbn [result self_after events].
  rewrite P2. cbn [result self_after events]. rewrite P3. reflexivity.
Qed.

Lemma alternating_sounds_all_play_witness :
  events ((play_error (Demo.world (Some 0%nat) 1) ;;
           play_event (Demo.world (Some 0%nat) 1) ;;
           play_error (Demo.world (Some 0%nat) 1))
            (self_after
               (set_sound (Demo.world None 0) (VStr SOUND_TYPE_EVENT)
                  (VStr "click.ogg") (VFloat 0.5) (VInt 0) (VInt 0) (VInt 0)
                  (Demo.bound false SOUND_TYPE_ERROR)))) =
  [play_of 0%nat (Demo.clip SOUND_TYPE_ERROR);
   play_of 0%nat (Demo.clip SOUND_TYPE_EVENT);
   play_of 0%nat (Demo.clip SOUND_TYPE_ERROR)].
Proof.
  refine (alternating_sounds_all_play SOUND_TYPE_ERROR SOUND_TYPE_EVENT
    (self_after
       (set_sound (Demo.world None 0) (VStr SOUND_TYPE_EVENT)
          (VStr "click.ogg") (VFloat 0.5) (VInt 0) (VInt 0) (VInt 0)
          (Demo.bound false SOUND_TYPE_ERROR)))
    (Demo.clip SOUND_TYPE_ERROR) (Demo.clip SOUND_TYPE_EVENT)
    (Demo.world (Some 0%nat) 1) (Demo.world (Some 0%nat) 1)
    (Demo.world (Some 0%nat) 1) 0%nat 0%nat 0%nat
    eq_refl _ _ _ _ eq_refl eq_refl eq_refl);
    try (vm_compute; reflexivity); vm_compute; discriminate.
Defined.

(* ===================================================================== *)
(** ** load_example_sounds *)
(* ===================================================================== *)

(** [set_sound] with a file name, for a type of the registry and
    arguments that pass the assertions. *)
Lemma set_sound_file w self k file vol loops maxtime fade_ms :
  k ∈ _type_sounds self ->
  volume_ok (VFloat vol) -> count_ok loops -> millis_ok maxtime ->
  millis_ok fade_ms ->
  set_sound w (VStr k) (VStr file) (VFloat vol) loops maxtime fade_ms self =
  if path_isfile w file then
    mkResult (Return (loaded_status w file))
      (set__sound k
         (loaded_entry w k file vol (VFloat vol) loops maxtime fade_ms) self)
      (loaded_warning w file)
  else
    mkResult
      (Raise (IOError ("sound file " +:+ dquote +:+ file +:+ dquote
                         +:+ " does not exist")))
      self [].
Proof.
  intros Hk Hv Hl Hm Hf.
  destruct (set_sound_asserts w self (VStr k) (VStr file) (VFloat vol) loops
              maxtime fade_ms)
    as [[Hbad _] | [_ (k' & vol' & [= <-] & [= <-] & ->)]].
  { exfalso. apply Hbad. repeat split; eauto. }
  destruct (path_isfile w file) eqn:Hp.
  - unfold loaded_status, loaded_entry, loaded_warning.
    destruct (mixer_Sound w file) as [sd|] eqn:Hsd.
    + eapply checked_loaded; eauto.
    + eapply checked_bad_format; eauto.
  - eapply checked_missing_file; eauto.
Qed.

Lemma count_ok_0 : count_ok (VInt 0).
Proof. exists 0. split; [reflexivity | lia]. Qed.

Lemma example_at_Some w i k file :
  example_at w i = Some (k, file) <->
  TYPE_SOUNDS !! i = Some k /\ SOUND_EXAMPLES (module_dir w) !! i = Some file.
Proof.
  unfold example_at.
  destruct (TYPE_SOUNDS !! i), (SOUND_EXAMPLES (module_dir w) !! i);
    split; try (intros [= <- <-]; auto); try (intros [[=] [=]]; subst; auto);
    try discriminate; intros [? ?]; discriminate.
Qed.

Lemma example_at_lt w i : (i < 9)%nat -> is_Some (example_at w i).
Proof.
  intros H. do 9 (destruct i as [|i]; [eexists; reflexivity|]). lia.
Qed.

Lemma examples_stored_cons w vol i idx self :
  examples_stored w vol (i :: idx) self =
  examples_stored w vol idx
    match example_at w i with
    | Some (type, file) =>
        set__sound type
          (loaded_entry w type file vol (VFloat vol) (VInt 0) (VInt 0) (VInt 0))
          self
    | None => self
    end.
Proof. reflexivity. Qed.

Lemma examples_warned_cons w i idx :
  examples_warned w (i :: idx) =
  (match example_at w i with
   | Some (_, file) => loaded_warning w file
   | None => []
   end ++ examples_warned w idx)%list.
Proof. reflexivity. Qed.

Lemma examples_stored_type_sounds w vol idx : forall self,
  _type_sounds (examples_stored w vol idx self) = _type_sounds self /\
  _channel (examples_stored w vol idx self) = _channel self /\
  _uniquechannel (examples_stored w vol idx self) = _uniquechannel self /\
  _last_play (examples_stored w vol idx self) = _last_play self /\
  _last_time (examples_stored w vol idx self) = _last_time self.
Proof.
  induction idx as [|i idx IH]; intros self; [repeat split|].
  rewrite examples_stored_cons.
  destruct (example_at w i) as [[k file]|]; [|apply IH].
  exact (IH (set__sound k _ self)).
Qed.

(** One round of the loop of [load_example_sounds]. *)
Lemma example_round w vol i k file self :
  _type_sounds self = TYPE_SOUNDS ->
  volume_ok (VFloat vol) ->
  example_at w i = Some (k, file) ->
  (self <- get_self ;;
   type <- index (_type_sounds self) i ;;
   example <- index (SOUND_EXAMPLES (module_dir w)) i ;;
   set_sound w (VStr type) (VStr example) (VFloat vol) (VInt 0) (VInt 0)
     (VInt 0) ;;
   ret tt) self =
  if path_isfile w file then
    mkResult (Return tt)
      (set__sound k
         (loaded_entry w k file vol (VFloat vol) (VInt 0) (VInt 0) (VInt 0))
         self)
      (loaded_warning w file)
  else
    mkResult
      (Raise (IOError ("sound file " +:+ dquote +:+ file +:+ dquote
                         +:+ " does not exist")))
      self [].
Proof.
  intros Ht Hv Hex. apply example_at_Some in Hex as [Hk Hfile].
  rewrite bind_get_self, Ht. unfold index. rewrite Hk, bind_ret, Hfile, bind_ret.
  unfold bind.
  rewrite set_sound_file;
    auto using count_ok_0;
    try (left; apply count_ok_0).
  2: { rewrite Ht. eapply list_elem_of_lookup_2. exact Hk. }
  destruct (path_isfile w file); simpl; [rewrite app_nil_r|]; reflexivity.
Qed.

(** The loop over indices whose files all exist. *)
Lemma examples_loop w vol idx : forall self,
  _type_sounds self = TYPE_SOUNDS ->
  volume_ok (VFloat vol) ->
  (forall i, i ∈ idx ->
     exists k file, example_at w i = Some (k, file) /\ path_isfile w file = true) ->
  for_range idx
    (fun sound =>
       self <- get_self ;;
       type <- index (_type_sounds self) sound ;;
       example <- index (SOUND_EXAMPLES (module_dir w)) sound ;;
       set_sound w (VStr type) (VStr example) (VFloat vol) (VInt 0) (VInt 0)
         (VInt 0) ;;
       ret tt) self =
  mkResult (Return tt) (examples_stored w vol idx self) (examples_warned w idx).
Proof.
  induction idx as [|i idx IH]; intros self Ht Hv Hfiles; [reflexivity|].
  destruct (Hfiles i) as (k & file & Hex & Hp); [left|].
  cbn [for_range]. unfold bind at 1.
  rewrite (example_round w vol i k file self Ht Hv Hex), Hp.
  cbn [result self_after events].
  rewrite IH; auto.
  2: { intros i' Hi'. apply Hfiles. right. exact Hi'. }
  cbn [result self_after events].
  rewrite examples_stored_cons, examples_warned_cons, Hex. reflexivity.
Qed.


(** The entries after the loop: untouched for the types of no index gone
    through, the loaded entry for the type of an index gone through. *)
Lemma examples_stored_other w vol k idx : forall self,
  (forall i file, i ∈ idx -> example_at w i <> Some (k, file)) ->
  _sound (examples_stored w vol idx self) !! k = _sound self !! k.
Proof.
  induction idx as [|i idx IH]; intros self Hk; [reflexivity|].
  rewrite examples_stored_cons.
  rewrite IH by (intros i' file Hi'; apply Hk; right; exact Hi').
  destruct (example_at w i) as [[k' file']|] eqn:Hex; [|reflexivity].
  simpl. apply lookup_insert_ne. intros ->.
  exact (Hk i file' ltac:(left) Hex).
Qed.

Lemma example_at_inj w i i' k file file' :
  example_at w i = Some (k, file) -> example_at w i' = Some (k, file') -> i = i'.
Proof.
  intros [H _]%example_at_Some [H' _]%example_at_Some.
  exact (NoDup_lookup _ _ _ _ type_sounds_NoDup H H').
Qed.

Lemma examples_stored_hit w vol k file i idx : forall self,
  NoDup idx -> i ∈ idx -> example_at w i = Some (k, file) ->
  _sound (examples_stored w vol idx self) !! k =
  Some (loaded_entry w k file vol (VFloat vol) (VInt 0) (VInt 0) (VInt 0)).
Proof.
  induction idx as [|i0 idx IH]; intros self Hnd Hi Hex.
  { inversion Hi. }
  apply NoDup_cons in Hnd as [Hi0 Hnd].
  rewrite examples_stored_cons.
  apply elem_of_cons in Hi as [<- | Hi].
  - rewrite examples_stored_other.
    + rewrite Hex. simpl. apply lookup_insert_eq.
    + intros i' file' Hi' Hex'.
      pose proof (example_at_inj w _ _ _ _ _ Hex Hex') as <-. contradiction.
  - apply IH; auto.
Qed.

Lemma load_example_sounds_eq w vol self :
  _type_sounds self = TYPE_SOUNDS ->
  load_example_sounds w (VFloat vol) self =
  for_range (seq 0 9)
    (fun sound =>
       self <- get_self ;;
       type <- index (_type_sounds self) sound ;;
       example <- index (SOUND_EXAMPLES (module_dir w)) sound ;;
       set_sound w (VStr type) (VStr example) (VFloat vol) (VInt 0) (VInt 0)
         (VInt 0) ;;
       ret tt) self.
Proof.
  intros Ht. unfold load_example_sounds. rewrite bind_assert. simpl isinstance.
  cbv iota. rewrite bind_get_self, Ht. reflexivity.
Qed.

Lemma example_at_seq w i k file :
  TYPE_SOUNDS !! i = Some k -> SOUND_EXAMPLES (module_dir w) !! i = Some file ->
  (i < 9)%nat /\ example_at w i = Some (k, file).
Proof.
  intros Hk Hf. split.
  - apply lookup_lt_Some in Hk. exact Hk.
  - apply example_at_Some. auto.
Qed.

(** X14. With a float volume in [0,1] and every example file present,
    [load_example_sounds] returns and binds every one of the nine sound
    types to its own example file, in the order of the two lists, with the
    given volume and [loops], [maxtime] and [fade_ms] at 0: the clip when
    the file decodes, the empty entry (and one warning) when it does not.
    Nothing else of the object changes. *)
Theorem load_example_sounds_binds_all w self vol :
  _type_sounds self = TYPE_SOUNDS ->
  volume_ok (VFloat vol) ->
  (forall file,
     file ∈ SOUND_EXAMPLES (module_dir w) -> path_isfile w file = true) ->
  let r := load_example_sounds w (VFloat vol) self in
  result r = Return tt /\
  (forall i k file,
     TYPE_SOUNDS !! i = Some k ->
     SOUND_EXAMPLES (module_dir w) !! i = Some file ->
     _sound (self_after r) !! k =
       Some (loaded_entry w k file vol (VFloat vol) (VInt 0) (VInt 0) (VInt 0))) /\
  events r = flat_map (loaded_warning w) (SOUND_EXAMPLES (module_dir w)) /\
  (forall k, k ∉ TYPE_SOUNDS -> _sound (self_after r) !! k = _sound self !! k) /\
  _channel (self_after r) = _channel self /\
  _uniquechannel (self_after r) = _uniquechannel self /\
  _last_play (self_after r) = _last_play self /\
  _last_time (self_after r) = _last_time self.
Proof.
  intros Ht Hv Hfiles. cbv zeta.
  rewrite (load_example_sounds_eq w vol self Ht).
  rewrite (examples_loop w vol (seq 0 9) self Ht Hv).
  2: { intros i Hi. apply elem_of_seq in Hi as [_ Hi].
       destruct (example_at_lt w i Hi) as [[k file] Hex].
       exists k, file. split; [exact Hex|]. apply Hfiles.
       apply example_at_Some in Hex as [_ Hf].
       eapply list_elem_of_lookup_2. exact Hf. }
  cbn [result self_after events].
  split; [reflexivity|]. split; [|split; [|split]].
  - intros i k file Hk Hf.
    destruct (example_at_seq w i k file Hk Hf) as [Hi Hex].
    apply (examples_stored_hit w vol k file i).
    + apply NoDup_seq.
    + apply elem_of_seq. lia.
    + exact Hex.
  - reflexivity.
  - intros k Hk. apply examples_stored_other.
    intros i file _ Hex. apply example_at_Some in Hex as [Hex _].
    apply Hk. eapply list_elem_of_lookup_2. exact Hex.
  - destruct (examples_stored_type_sounds w vol (seq 0 9) self)
      as (_ & ? & ? & ? & ?). auto.
Qed.

Lemma load_example_sounds_binds_all_witness :
  result (load_example_sounds (Demo.world None 0) (VFloat 0.5)
            (Demo.registry true)) = Return tt /\
  _sound (self_after (load_example_sounds (Demo.world None 0) (VFloat 0.5)
                        (Demo.registry true))) !! SOUND_TYPE_ERROR =
  Some (ClipDict
          {| clip_file := sound_set_volume 0.5 Demo.one_second;
             clip_path := "/pygame_menu/resources/sounds/error.ogg";
             clip_type := SOUND_TYPE_ERROR;
             clip_length := 1;
             clip_volume := VFloat 0.5;
             clip_loops := VInt 0;
             clip_maxtime := VInt 0;
             clip_fade_ms := VInt 0 |}).
Proof.
  assert (Hv : volume_ok (VFloat 0.5)) by (eexists; repeat split).
  pose proof (load_example_sounds_binds_all (Demo.world None 0)
                (Demo.registry true) 0.5 eq_refl Hv (fun _ _ => eq_refl)) as H.
  split; [exact (proj1 H)|].
  exact (proj1 (proj2 H) 2%nat SOUND_TYPE_ERROR
           "/pygame_menu/resources/sounds/error.ogg" eq_refl eq_refl).
Defined.



Lemma example_round_rejects w vol i k file self :
  _type_sounds self = TYPE_SOUNDS ->
  ~ volume_ok (VFloat vol) ->
  example_at w i = Some (k, file) ->
  exists msg,
    (self <- get_self ;;
     type <- index (_type_sounds self) i ;;
     example <- index (SOUND_EXAMPLES (module_dir w)) i ;;
     set_sound w (VStr type) (VStr example) (VFloat vol) (VInt 0) (VInt 0)
       (VInt 0) ;;
     ret tt) self =
    mkResult (Raise (AssertionError msg)) self [].
Proof.
  intros Ht Hv Hex. apply example_at_Some in Hex as [Hk Hfile].
  rewrite bind_get_self, Ht. unfold index. rewrite Hk, bind_ret, Hfile, bind_ret.
  unfold bind.
  destruct (set_sound_asserts w self (VStr k) (VStr file) (VFloat vol)
              (VInt 0) (VInt 0) (VInt 0))
    as [[_ [msg ->]] | [(_ & _ & Hok & _) _]]; [|contradiction].
  exists msg. reflexivity.
Qed.

(** X16. [load_example_sounds] with a volume that is not a float in [0,1]
    raises an [AssertionError] before any file is looked at or any entry
    is touched: its own type assertion for a volume that is no float, the
    range assertion of the first [set_sound] for a float out of range. *)
Theorem load_example_sounds_rejects_volume w self volume :
  _type_sounds self = TYPE_SOUNDS ->
  ~ volume_ok volume ->
  exists msg,
    load_example_sounds w volume self =
    mkResult (Raise (AssertionError msg)) self [].
Proof.
  intros Ht Hv.
  destruct volume as [| | |vol| | | |];
    try (eexists; unfold load_example_sounds; rewrite bind_assert;
         reflexivity).
  rewrite (load_example_sounds_eq w vol self Ht).
  cbn [seq for_range]. unfold bind at 1.
  destruct (example_round_rejects w vol 0 SOUND_TYPE_CLICK_MOUSE
              (__sounds_path__ (module_dir w) "click_mouse.ogg") self Ht Hv
              eq_refl) as [msg ->].
  exists msg. reflexivity.
Qed.

Lemma load_example_sounds_rejects_volume_witness :
  exists msg,
    load_example_sounds (Demo.world None 0) (VFloat 1.5) (Demo.registry true)
    = mkResult (Raise (AssertionError msg)) (Demo.registry true) [].
Proof.
  refine (load_example_sounds_rejects_volume (Demo.world None 0)
            (Demo.registry true) (VFloat 1.5) eq_refl _).
  intros (f & [= <-] & _ & H). vm_compute in H. discriminate.
Defined.

(* ===================================================================== *)
(** ** assert_vector2, make_surface and check_key_pressed_valid *)
(* ===================================================================== *)

Module HelpersFacts.
Import Utils Helpers.

Lemma isinstance_number v :
  isinstance v [Tint; Tfloat] = true <-> is_number v.
Proof.
  unfold is_number. destruct v; simpl; split; try discriminate; eauto;
    intros [[? ?] | [? ?]]; discriminate.
Qed.

Lemma assert_vector2_items items :
  assert_vector2 (VTuple items) = assert_vector2 (VList items).
Proof. reflexivity. Qed.

Lemma assert_vector2_cases items :
  ((exists a b, items = [a; b] /\ is_number a /\ is_number b) /\
   assert_vector2 (VList items) = Return tt) \/
  (~ (exists a b, items = [a; b] /\ is_number a /\ is_number b) /\
   is_assertion_error (assert_vector2 (VList items))).
Proof.
  destruct items as [|a [|b [|c rest]]].
  1,2: right; split; [intros (? & ? & ? & _); discriminate
                     | eexists; reflexivity].
  - unfold assert_vector2, check. cbn -[isinstance].
    destruct (isinstance a [Tint; Tfloat]) eqn:Ha;
      [destruct (isinstance b [Tint; Tfloat]) eqn:Hb|]; cbn [andb].
    + left. split; [|reflexivity]. exists a, b.
      rewrite <- !isinstance_number. auto.
    + right. split; [|eexists; reflexivity].
      intros (? & ? & [= <- <-] & _ & H). apply isinstance_number in H.
      congruence.
    + right. split; [|eexists; reflexivity].
      intros (? & ? & [= <- <-] & H & _). apply isinstance_number in H.
      congruence.
  - right. split; [intros (? & ? & ? & _); discriminate|].
    unfold assert_vector2, check. cbn -[Z.eqb length].
    change (length (a :: b :: c :: rest)) with (3 + length rest)%nat.
    replace (Z.of_nat (3 + length rest) =? 2) with false
      by (symmetry; apply Z.eqb_neq; lia).
    eexists; reflexivity.
Qed.

(** X17. [assert_vector2] returns normally exactly on a tuple or list of
    two numbers, each an [int] (a [bool] included) or a [float], and
    raises an [AssertionError] on every other value; [(1, 2.5)] passes
    and [(1, 'a')] fails. *)
Theorem assert_vector2_correct :
  (forall v, valid_vector2 v <-> assert_vector2 v = Return tt) /\
  (forall v, ~ valid_vector2 v <-> is_assertion_error (assert_vector2 v)) /\
  assert_vector2 (VTuple [VInt 1; VFloat 2.5]) = Return tt /\
  is_assertion_error (assert_vector2 (VTuple [VInt 1; VStr "a"])).
Proof.
  assert (Hdec : forall v,
    (valid_vector2 v /\ assert_vector2 v = Return tt) \/
    (~ valid_vector2 v /\ is_assertion_error (assert_vector2 v))).
  { intros v.
    destruct v;
      try (right; split;
           [intros (? & ? & [?|?] & _); discriminate | eexists; reflexivity]).
    all: try rewrite assert_vector2_items.
    all: destruct (assert_vector2_cases items)
           as [[(a & b & -> & Ha & Hb) Hr] | [Hv Hr]];
      [left | right]; (split; [|exact Hr]).
    all: try (exists a, b; auto; fail).
    all: intros (a & b & [[= ->] | [= ->]] & Ha & Hb); apply Hv; eauto. }
  split; [|split; [|split]].
  - intros v. destruct (Hdec v) as [[Hv Hr] | [Hv [msg Hr]]]; [tauto|].
    rewrite Hr. split; [tauto | discriminate].
  - intros v. destruct (Hdec v) as [[Hv Hr] | [Hv Hr]]; [|tauto].
    split; [tauto|]. rewrite Hr. intros [msg Hm]. discriminate.
  - reflexivity.
  - eexists; reflexivity.
Qed.

(** A number that is at least 0 converts to an integer that is at least
    0. *)
Lemma int_nonneg v z : ge_zero v = true -> int_ v = Returns z -> 0 <= z.
Proof.
  destruct v; simpl; try discriminate.
  - intros _ [= <-]. destruct b; simpl; lia.
  - intros H [= <-]. lia.
  - unfold float_ge. rewrite leb_spec.
    change (Prim2SF 0) with (S754_zero false).
    destruct (Prim2SF f) as [s|s| |s m e]; try discriminate.
    + intros _ [= <-]. lia.
    + destruct s; [discriminate|]. intros _ [= <-].
      apply Z.shiftl_nonneg. lia.
Qed.

(** X18. A surface [make_surface] returns has the given width and height
    converted by [int], both at least 0 (a float is truncated), has gone
    through [convert_alpha] exactly when [alpha] is [True], and is filled
    exactly when a colour was given, which then is a tuple that
    [assert_color] accepts. *)
Theorem make_surface_returns d width height alpha fill_color s :
  make_surface d width height alpha fill_color = Returns s ->
  exists w h a,
    int_ width = Returns w /\ int_ height = Returns h /\
    alpha = VBool a /\
    0 <= w /\ 0 <= h /\
    surface_size s = (w, h) /\
    surface_converted s = a /\
    ((fill_color = VNone /\ surface_fill s = None) \/
     (exists items,
        fill_color = VTuple items /\ valid_color fill_color /\
        surface_fill s = Some fill_color)).
Proof.
  unfold make_surface. cbv zeta.
  destruct (isinstance width [Tint; Tfloat]) eqn:E1; [|discriminate].
  destruct (isinstance height [Tint; Tfloat]) eqn:E2; [|discriminate].
  destruct (isinstance alpha [Tbool]) eqn:E3; [|discriminate].
  destruct (isinstance fill_color [TNoneType; Ttuple]) eqn:E4; [|discriminate].
  destruct (ge_zero width && ge_zero height) eqn:E5; [|discriminate].
  apply andb_true_iff in E5 as [Hw Hh]. cbn [negb].
  destruct (int_ width) as [w|e] eqn:Ew; [|discriminate].
  destruct (int_ height) as [h|e] eqn:Eh; [|discriminate].
  destruct (Surface_raises d (w, h)); [discriminate|].
  destruct alpha as [|a| | | | | |]; try discriminate. cbn [truth].
  destruct (a && convert_alpha_raises d) eqn:Ea; [discriminate|].
  intros H. exists w, h, a.
  split; [reflexivity|]. split; [reflexivity|]. split; [reflexivity|].
  split; [exact (int_nonneg _ _ Hw Ew)|].
  split; [exact (int_nonneg _ _ Hh Eh)|].
  destruct fill_color as [| | | | |items| |]; try discriminate.
  - injection H as <-. destruct a; repeat split; auto.
  - destruct (UtilsFacts.assert_color_decides (VTuple items))
      as [[Hv Hr] | [_ [msg Hr]]]; rewrite Hr in H; [|discriminate].
    injection H as <-. destruct a; repeat split; eauto.
Qed.

Lemma make_surface_returns_witness :
  exists s,
    make_surface (mkDisplay (fun _ => false) false) (VFloat 2.75) (VInt 3)
      (VBool true) (VTuple [VInt 10; VInt 20; VInt 30]) = Returns s /\
    surface_size s = (2, 3).
Proof.
  eexists. split; [reflexivity|].
  destruct (make_surface_returns (mkDisplay (fun _ => false) false)
              (VFloat 2.75) (VInt 3) (VBool true)
              (VTuple [VInt 10; VInt 20; VInt 30]) _ eq_refl)
    as (w & h & a & Hw & Hh & _ & _ & _ & Hs & _).
  vm_compute in Hw, Hh. injection Hw as <-. injection Hh as <-. exact Hs.
Defined.

(** X19. [make_surface] raises an [AssertionError], whatever the display
    does, for a negative width or height and for every fill colour given
    as a list, although [assert_color] accepts lists; and a width of
    [float('inf')] passes the assertions and raises the [OverflowError]
    of [int]. *)
Theorem make_surface_rejects d width height alpha fill_color :
  (negative width \/ negative height \/ (exists items, fill_color = VList items) ->
   exists msg,
     make_surface d width height alpha fill_color =
     Raises (Builtin (AssertionError msg))) /\
  (width = VFloat infinity ->
   ge_zero height = true -> is_number height ->
   (exists a, alpha = VBool a) -> fill_color = VNone ->
   make_surface d width height alpha fill_color =
   Raises (OverflowError "cannot convert float infinity to integer")) /\
  assert_color (VList [VInt 10; VInt 20; VInt 30]) = Return tt.
Proof.
  split; [|split; [|reflexivity]].
  - intros H. unfold make_surface. cbv zeta.
    destruct (isinstance width [Tint; Tfloat]) eqn:E1; [|eauto].
    destruct (isinstance height [Tint; Tfloat]) eqn:E2; [|eauto].
    destruct (isinstance alpha [Tbool]) eqn:E3; [|eauto].
    destruct (isinstance fill_color [TNoneType; Ttuple]) eqn:E4; [|eauto].
    destruct (ge_zero width && ge_zero height) eqn:E5; [|eauto].
    exfalso. apply andb_true_iff in E5 as [Hw Hh].
    destruct H as [H | [H | [items ->]]].
    + apply negative_not_millis_ok in H. apply H, millis_ok_spec.
      rewrite E1, Hw. reflexivity.
    + apply negative_not_millis_ok in H. apply H, millis_ok_spec.
      rewrite E2, Hh. reflexivity.
    + discriminate.
  - intros -> Hh Hn [a ->] ->. unfold make_surface. cbv zeta.
    apply isinstance_number in Hn. rewrite Hn, Hh. reflexivity.
Qed.

Lemma make_surface_rejects_witness :
  make_surface (mkDisplay (fun _ => false) false) (VFloat infinity) (VInt 3)
    (VBool false) VNone =
  Raises (OverflowError "cannot convert float infinity to integer").
Proof.
  refine (proj1 (proj2 (make_surface_rejects (mkDisplay (fun _ => false) false)
    (VFloat infinity) (VInt 3) (VBool false) VNone)) eq_refl eq_refl _ _ eq_refl).
  - left. exists 3. reflexivity.
  - exists false. reflexivity.
Defined.

(** X20. [check_key_pressed_valid] returns [True] exactly when a key is
    reported pressed or the event carries a true [test] entry, and then
    posts nothing; otherwise it posts one [KEYUP] event with the key of
    the event and returns [False], or raises an [AttributeError] when the
    event has no key. *)
Theorem check_key_pressed_valid_cases pressed (event : gmap string pyval) :
  let r := check_key_pressed_valid pressed event in
  let test :=
    match event !! "test" with Some v => truthy v | None => false end in
  (r.1 = Returns true <-> (true ∈ pressed) \/ test = true) /\
  (r.1 = Returns true -> r.2 = []) /\
  (forall key,
     r = (Returns false, [PostKeyUp key]) <->
     (true ∉ pressed) /\ test = false /\ event !! "key" = Some key) /\
  (r = (Raises (AttributeError "key"), []) <->
   (true ∉ pressed) /\ test = false /\ event !! "key" = None) /\
  (r.1 = Returns false -> exists key, r.2 = [PostKeyUp key]).
Proof.
  cbv zeta. unfold check_key_pressed_valid.
  destruct (decide (true ∈ pressed)) as [Hin | Hout].
  - rewrite bool_decide_eq_true_2 by exact Hin. simpl.
    repeat split; auto; try discriminate; try tauto.
    all: try (intros [=]); try (intros (? & _); contradiction).
  - rewrite bool_decide_eq_false_2 by exact Hout. cbn [negb].
    destruct (match event !! "test" with
              | Some v => truthy v | None => false end) eqn:Ht.
    + simpl. repeat split; auto; try discriminate.
      all: try (intros [=]); try (intros (_ & ? & _); discriminate).
    + destruct (event !! "key") as [k|] eqn:Hk; simpl.
      * repeat split; auto; try discriminate; try congruence; eauto.
        all: try (intros [? | ?]; [contradiction | discriminate]).
        all: try (intros (_ & _ & ?); congruence).
      * repeat split; auto; try discriminate; try congruence; eauto.
        all: try (intros [? | ?]; [contradiction | discriminate]).
        all: try (intros (_ & _ & ?); congruence).
Qed.

End HelpersFacts.
